(** * Composite specification algebra of [profit_calc/specifications.py]

    A shallow embedding of the Python module and the properties of its
    specification algebra.  Python objects have identity and [And.__and__] /
    [Or.__or__] update their receiver in place, so specification nodes live in
    an object store and are named by references; the operators are store
    transformers and evaluation reads the store. *)

From Stdlib Require Import ZArith NArith QArith Qpower Lia Lqa Ascii String.
From Stdlib Require DecimalFacts DecimalPos.
From stdpp Require Import base option list gmap strings.
From stdpp Require Import pretty.

Local Open Scope Z_scope.

(** ** Exceptions and results *)

(** The exceptions that evaluation can raise.  [RecursionError] is what
    Python raises when the nesting of calls exceeds the interpreter's limit;
    [DanglingReference] has no Python counterpart (a reference always names a
    live object) and only makes store lookup total. *)
Inductive exception :=
| KeyError (key : string)
| AttributeError
| TypeError
| InvalidOperation
| DivisionByZero
| Overflow
| ParserError
| NotImplementedError
| RecursionError
| DanglingReference.

Inductive result (A : Type) :=
| Ok (a : A)
| Raise (e : exception).
Arguments Ok {A} a.
Arguments Raise {A} e.

#[global] Instance result_ret : MRet result := fun _ a => Ok a.
#[global] Instance result_bind : MBind result := fun _ _ f m =>
  match m with
  | Ok a => f a
  | Raise e => Raise e
  end.
#[global] Instance result_fmap : FMap result := fun _ _ f m =>
  match m with
  | Ok a => Ok (f a)
  | Raise e => Raise e
  end.

(** A list comprehension [[f(x) for x in l]]: every element is computed, in
    order, and the first exception aborts the whole comprehension. *)
Fixpoint comprehension {A B} (f : A -> result B) (l : list A) : result (list B) :=
  match l with
  | [] => Ok (@nil B)
  | x :: l' => y ← f x; ys ← comprehension f l'; Ok (y :: ys)
  end.

(** [[x for x in l if not p(x)]]. *)
Fixpoint comprehension_if_not {A} (p : A -> result bool) (l : list A) : result (list A) :=
  match l with
  | [] => Ok (@nil A)
  | x :: l' =>
      b ← p x; xs ← comprehension_if_not p l';
      Ok (if (b : bool) then xs else x :: xs)
  end.

(** [p x] returns [False]. *)
Definition fails {A} (p : A -> result bool) (x : A) : bool :=
  match p x with
  | Ok false => true
  | _ => false
  end.

(** The builtins [all] and [any] on a list of booleans. *)
Definition all (l : list bool) : bool := forallb id l.
Definition any (l : list bool) : bool := existsb id l.

(** ** [decimal.Decimal] under the default context

    Precision 28, rounding ROUND_HALF_EVEN, Emax 999999, Emin -999999, and the
    traps InvalidOperation, DivisionByZero and Overflow enabled.  A finite
    number is sign, coefficient and exponent; the payload of a NaN is not
    kept. *)
Module decimal.

Inductive Decimal :=
| Finite (_sign : bool) (_int : N) (_exp : Z)
| Infinity (_sign : bool)
| NaN (signaling : bool).

Definition prec : Z := 28.
Definition Emax : Z := 999999.
Definition Emin : Z := -999999.
Definition Etiny : Z := Emin - prec + 1.
Definition Etop : Z := Emax - prec + 1.

(** [len(self._int)]: the number of decimal digits, 1 for zero. *)
Definition len (n : N) : Z := Z.of_nat (Decimal.nb_digits (N.to_uint n)).

(** [Decimal(n)] for an [int]. *)
Definition of_int (n : Z) : Decimal := Finite (n <? 0) (Z.abs_N n) 0.

(** [bool(d)]: NaNs and infinities count as nonzero. *)
Definition __bool__ (d : Decimal) : bool :=
  match d with
  | Finite _ c _ => negb (c =? 0)%N
  | _ => true
  end.

(** The numerical value of a finite number. *)
Definition to_Q (sign : bool) (coeff : N) (exp : Z) : Q :=
  ((if sign then -1 else 1) * inject_Z (Z.of_N coeff) * (10 # 1) ^ exp)%Q.

Definition pow10 (k : Z) : N := (10 ^ Z.to_N k)%N.

(** [_round_half_up] and [_round_half_even] on a coefficient of which the
    first [digits] digits are kept: 1 rounds up, 0 truncates zeros, -1
    truncates nonzero digits. *)
Definition _round_half_up (coeff : N) (digits : Z) : Z :=
  let k := len coeff - digits in
  let rest := (coeff mod pow10 k)%N in
  if (5 * pow10 (k - 1) <=? rest)%N then 1
  else if (rest =? 0)%N then 0 else -1.

Definition _round_half_even (coeff : N) (digits : Z) : Z :=
  let k := len coeff - digits in
  let rest := (coeff mod pow10 k)%N in
  if (rest =? 5 * pow10 (k - 1))%N && ((digits =? 0) || N.even (coeff / pow10 k))
  then -1
  else _round_half_up coeff digits.

(** [_fix]: round to the context's precision and check the exponent range. *)
Definition _fix (d : Decimal) : result Decimal :=
  match d with
  | Finite sign coeff exp =>
      if (coeff =? 0)%N then
        Ok (Finite sign 0 (Z.min (Z.max exp Etiny) Emax))
      else
        let exp_min := len coeff + exp - prec in
        if Etop <? exp_min then Raise Overflow
        else
          let exp_min := Z.max exp_min Etiny in
          if exp <? exp_min then
            let digits := len coeff + exp - exp_min in
            let '(coeff, digits) :=
              if digits <? 0 then (1%N, 0) else (coeff, digits) in
            let changed := _round_half_even coeff digits in
            let kept := (coeff / pow10 (len coeff - digits))%N in
            let '(coeff, exp_min) :=
              if 0 <? changed then
                let c := (kept + 1)%N in
                if prec <? len c then ((c / 10)%N, exp_min + 1) else (c, exp_min)
              else (kept, exp_min) in
            if Etop <? exp_min then Raise Overflow
            else Ok (Finite sign coeff exp_min)
          else Ok d
  | _ => Ok d
  end.

(** The loop of an exact division that moves the exponent towards the ideal
    one; [steps] is the distance left to the ideal exponent. *)
Fixpoint to_ideal_exp (steps : nat) (coeff : N) (exp : Z) : N * Z :=
  match steps with
  | O => (coeff, exp)
  | S steps' =>
      if (coeff mod 10 =? 0)%N then to_ideal_exp steps' (coeff / 10)%N (exp + 1)
      else (coeff, exp)
  end.

(** [self / other]. *)
Definition __truediv__ (self other : Decimal) : result Decimal :=
  match self, other with
  | NaN true, _ | _, NaN true => Raise InvalidOperation
  | NaN false, _ | _, NaN false => Ok (NaN false)
  | Infinity _, Infinity _ => Raise InvalidOperation
  | Infinity s1, Finite s2 _ _ => Ok (Infinity (xorb s1 s2))
  | Finite s1 _ _, Infinity s2 => Ok (Finite (xorb s1 s2) 0 Etiny)
  | Finite s1 c1 e1, Finite s2 c2 e2 =>
      let sign := xorb s1 s2 in
      if (c2 =? 0)%N then
        if (c1 =? 0)%N then Raise InvalidOperation else Raise DivisionByZero
      else if (c1 =? 0)%N then _fix (Finite sign 0 (e1 - e2))
      else
        let shift := len c2 - len c1 + prec + 1 in
        let exp := e1 - e2 - shift in
        let '(coeff, remainder) :=
          if 0 <=? shift then N.div_eucl (c1 * pow10 shift) c2
          else N.div_eucl c1 (c2 * pow10 (- shift)) in
        let '(coeff, exp) :=
          if (remainder =? 0)%N then to_ideal_exp (Z.to_nat (e1 - e2 - exp)) coeff exp
          else ((if (coeff mod 5 =? 0)%N then coeff + 1 else coeff)%N, exp) in
        _fix (Finite sign coeff exp)
  end.

(** The rich comparisons of a [Decimal] with an [int]: exact on the
    numerical values, and a comparison involving a NaN signals
    InvalidOperation. *)
Definition __lt__ (self : Decimal) (other : Z) : result bool :=
  match self with
  | NaN _ => Raise InvalidOperation
  | Infinity s => Ok s
  | Finite s c e => Ok (negb (Qle_bool (inject_Z other) (to_Q s c e)))
  end.

Definition __le__ (self : Decimal) (other : Z) : result bool :=
  match self with
  | NaN _ => Raise InvalidOperation
  | Infinity s => Ok s
  | Finite s c e => Ok (Qle_bool (to_Q s c e) (inject_Z other))
  end.

Definition __gt__ (self : Decimal) (other : Z) : result bool :=
  match self with
  | NaN _ => Raise InvalidOperation
  | Infinity s => Ok (negb s)
  | Finite s c e => Ok (negb (Qle_bool (to_Q s c e) (inject_Z other)))
  end.

Definition __ge__ (self : Decimal) (other : Z) : result bool :=
  match self with
  | NaN _ => Raise InvalidOperation
  | Infinity s => Ok (negb s)
  | Finite s c e => Ok (Qle_bool (inject_Z other) (to_Q s c e))
  end.

End decimal.

Import decimal.

(** ** Candidates *)

(** The values a candidate holds: [str], [int] and [Decimal] objects. *)
Inductive value :=
| VStr (s : string)
| VInt (n : Z)
| VDecimal (d : Decimal).

(** A candidate is a [dict] with string keys. *)
Abbreviation Candidate := (gmap string value).

(** [candidate[key]]. *)
Definition __getitem__ (candidate : Candidate) (key : string) : result value :=
  match candidate !! key with
  | Some v => Ok v
  | None => Raise (KeyError key)
  end.

(** Truth value of an object, as tested by [if base:]. *)
Definition truthy (v : value) : bool :=
  match v with
  | VStr s => negb (String.eqb s "")
  | VInt n => negb (n =? 0)
  | VDecimal d => __bool__ d
  end.

(** ** The libraries the module calls

    [str.lower], the string syntax accepted by [decimal.Decimal], and
    [pendulum]'s parser and differences are not code of this module; the
    embedding takes them as an interface.  [None] stands for the library's
    exception (InvalidOperation for [Decimal], ParserError for [pendulum]),
    [in_years a f] for [a.diff(f).in_years()] and [in_days a f] for
    [a.diff(f).in_days()]. *)
Class Library := {
  lower : string -> string;
  Decimal_of_str : string -> option Decimal;
  DateTime : Type;
  parse : string -> option DateTime;
  in_years : DateTime -> DateTime -> Z;
  in_days : DateTime -> DateTime -> Z
}.

Section Specifications.
Context {L : Library}.

(** [v.lower()]: only [str] has the method. *)
Definition str_lower (v : value) : result string :=
  match v with
  | VStr s => Ok (lower s)
  | _ => Raise AttributeError
  end.

(** [Decimal(v)]. *)
Definition Decimal_new (v : value) : result Decimal :=
  match v with
  | VDecimal d => Ok d
  | VInt n => Ok (of_int n)
  | VStr s =>
      match Decimal_of_str s with
      | Some d => Ok d
      | None => Raise InvalidOperation
      end
  end.

(** [pendulum.parse(v)]. *)
Definition pendulum_parse (v : value) : result DateTime :=
  match v with
  | VStr s =>
      match parse s with
      | Some t => Ok t
      | None => Raise ParserError
      end
  | _ => Raise TypeError
  end.

(** ** Specification objects and the object store *)

(** References are positions in the store. *)
Abbreviation ref := nat.

(** One constructor per class, carrying the instance attributes.
    [BaseSpecification] stands for an instance of a class that does not
    override [is_satisfied_by]. *)
Inductive Specification :=
| BaseSpecification
| And (specifications : list ref)
| Or (specifications : list ref)
| Invert (specification : ref)
| Xor (left right : ref)
| TrueSpecification
| FalseSpecification
| DirectorBoard
| Trainee
| AccountingDepartment
| FinancialDepartment
| ITDepartment
| FacilitiesDepartment
| CustomerExperienceDepartment
| SalaryGreaterThan (_threshold : Z) (BASE_SALARY : Decimal)
| SalaryLessThan (_threshold : Z) (BASE_SALARY : Decimal)
| SalaryBetween (_first _second : Z) (BASE_SALARY : Decimal)
| AdmissionTimeInYearsLessThan (_threshold : Z) (_frozen : DateTime)
| AdmissionTimeInYearsGreaterThan (_threshold : Z) (_frozen : DateTime)
| AdmissionTimeInYearsBetween (_initial_threshold _end_threshold : Z) (_frozen : DateTime).

(** The store: the object named by reference [r] is the [r]-th entry, and a
    new object is appended. *)
Abbreviation heap := (list Specification).

Definition alloc (h : heap) (o : Specification) : heap * ref :=
  (h ++ [o], length h).

(** The references an object holds. *)
Definition children (o : Specification) : list ref :=
  match o with
  | And specifications | Or specifications => specifications
  | Invert specification => [specification]
  | Xor left' right' => [left'; right']
  | _ => []
  end.

Definition is_And (h : heap) (r : ref) : Prop :=
  exists specifications, h !! r = Some (And specifications).

Definition is_Or (h : heap) (r : ref) : Prop :=
  exists specifications, h !! r = Some (Or specifications).

(** [reaches h x y]: [y] is [x] or occurs below [x]. *)
Inductive reaches (h : heap) : ref -> ref -> Prop :=
| reaches_refl x : reaches h x x
| reaches_step x o y z :
    h !! x = Some o -> y ∈ children o -> reaches h y z -> reaches h x z.

(** [inside h a b]: the object [a] occurs strictly below [b]. *)
Definition inside (h : heap) (a b : ref) : Prop :=
  exists o y, h !! b = Some o /\ y ∈ children o /\ reaches h y a.

(** ** Constructors of the leaf predicates *)

(** [BaseSalaryCalculatorMixin.BASE_SALARY = Decimal("1045.0")]. *)
Definition BASE_SALARY_default : Decimal := Finite false 10450 (-1).

(** [BaseSalaryCalculatorMixin.__init__]: the value of [self.BASE_SALARY]. *)
Definition BaseSalaryCalculatorMixin__init__ (base : option value) : result Decimal :=
  match base with
  | Some v => if truthy v then Decimal_new v else Ok BASE_SALARY_default
  | None => Ok BASE_SALARY_default
  end.

Definition SalaryGreaterThan__init__ (threshold : Z) (base : option value)
  : result Specification :=
  b ← BaseSalaryCalculatorMixin__init__ base; Ok (SalaryGreaterThan threshold b).

Definition SalaryLessThan__init__ (threshold : Z) (base : option value)
  : result Specification :=
  b ← BaseSalaryCalculatorMixin__init__ base; Ok (SalaryLessThan threshold b).

Definition SalaryBetween__init__ (first second : Z) (base : option value)
  : result Specification :=
  b ← BaseSalaryCalculatorMixin__init__ base; Ok (SalaryBetween first second b).

(** [pendulum.parse(current_time) if current_time else pendulum.now()];
    [now] is the clock's reading at construction. *)
Definition frozen_time (current_time : option string) (now : DateTime) : result DateTime :=
  match current_time with
  | Some s => if String.eqb s "" then Ok now else pendulum_parse (VStr s)
  | None => Ok now
  end.

Definition AdmissionTimeInYearsLessThan__init__
  (threshold : Z) (current_time : option string) (now : DateTime) : result Specification :=
  t ← frozen_time current_time now; Ok (AdmissionTimeInYearsLessThan threshold t).

Definition AdmissionTimeInYearsGreaterThan__init__
  (threshold : Z) (current_time : option string) (now : DateTime) : result Specification :=
  t ← frozen_time current_time now; Ok (AdmissionTimeInYearsGreaterThan threshold t).

Definition BASE_DAYS_ON_YEAR : Z := 365.

Definition AdmissionTimeInYearsBetween__init__
  (initial final : Z) (current_time : option string) (now : DateTime) : result Specification :=
  t ← frozen_time current_time now;
  Ok (AdmissionTimeInYearsBetween (initial * BASE_DAYS_ON_YEAR) (final * BASE_DAYS_ON_YEAR) t).

(** ** Composition operators *)

(** [self & other]: [And.__and__] when [self] is an [And], which extends
    [self.specifications] in place and returns [self]; otherwise
    [Specification.__and__], which builds [And(self, other)]. *)
Definition __and__ (h : heap) (self other : ref) : heap * ref :=
  match h !! self with
  | Some (And specifications) =>
      match h !! other with
      | Some (And other_specifications) =>
          (<[self := And (specifications ++ other_specifications)]> h, self)
      | _ => (<[self := And (specifications ++ [other])]> h, self)
      end
  | _ => alloc h (And [self; other])
  end.

(** [self | other], likewise with [Or.__or__]. *)
Definition __or__ (h : heap) (self other : ref) : heap * ref :=
  match h !! self with
  | Some (Or specifications) =>
      match h !! other with
      | Some (Or other_specifications) =>
          (<[self := Or (specifications ++ other_specifications)]> h, self)
      | _ => (<[self := Or (specifications ++ [other])]> h, self)
      end
  | _ => alloc h (Or [self; other])
  end.

(** [self ^ other] and [~self] always build a new object. *)
Definition __xor__ (h : heap) (self other : ref) : heap * ref :=
  alloc h (Xor self other).

Definition __invert__ (h : heap) (self : ref) : heap * ref :=
  alloc h (Invert self).

(** ** Evaluation of the leaf predicates *)

(** [candidate[key].lower() == name]. *)
Definition lower_equals (candidate : Candidate) (key name : string) : result bool :=
  v ← __getitem__ candidate key; s ← str_lower v; Ok (String.eqb s name).

(** [BaseSalaryCalculatorMixin.sanitize] and [calculate]. *)
Definition sanitize (raw_salary : value) : result Decimal :=
  match raw_salary with
  | VDecimal d => Ok d
  | _ => Decimal_new raw_salary
  end.

Definition calculate (BASE_SALARY raw_salary : Decimal) : result Decimal :=
  __truediv__ raw_salary BASE_SALARY.

(** [self.calculate(self.sanitize(candidate["salario_bruto"]))]. *)
Definition salaries (BASE_SALARY : Decimal) (candidate : Candidate) : result Decimal :=
  v ← __getitem__ candidate "salario_bruto"; d ← sanitize v; calculate BASE_SALARY d.

(** [pendulum.parse(candidate["data_de_admissao"])]. *)
Definition admission (candidate : Candidate) : result DateTime :=
  v ← __getitem__ candidate "data_de_admissao"; pendulum_parse v.

(** [is_satisfied_by] of the classes that hold no reference. *)
Definition leaf_is_satisfied_by (o : Specification) (candidate : Candidate) : result bool :=
  match o with
  | TrueSpecification => Ok true
  | FalseSpecification => Ok false
  | DirectorBoard => lower_equals candidate "area" "diretoria"
  | Trainee => lower_equals candidate "cargo" "estagiario"
  | AccountingDepartment => lower_equals candidate "area" "contabilidade"
  | FinancialDepartment => lower_equals candidate "area" "financeiro"
  | ITDepartment => lower_equals candidate "area" "tecnologia"
  | FacilitiesDepartment => lower_equals candidate "area" "serviços gerais"
  | CustomerExperienceDepartment =>
      lower_equals candidate "area" "relacionamento com o cliente"
  | SalaryGreaterThan threshold BASE =>
      r ← salaries BASE candidate; __gt__ r threshold
  | SalaryLessThan threshold BASE =>
      r ← salaries BASE candidate; __lt__ r threshold
  | SalaryBetween first second BASE =>
      r ← salaries BASE candidate;
      b ← __ge__ r first;
      if (b : bool) then __le__ r second else Ok false
  | AdmissionTimeInYearsLessThan threshold frozen =>
      a ← admission candidate; Ok (in_years a frozen <? threshold)
  | AdmissionTimeInYearsGreaterThan threshold frozen =>
      a ← admission candidate; Ok (threshold <=? in_years a frozen)
  | AdmissionTimeInYearsBetween initial_threshold end_threshold frozen =>
      a ← admission candidate;
      let diff_in_years := in_days a frozen in
      Ok ((initial_threshold <? diff_in_years) && (diff_in_years <? end_threshold))
  | _ => Raise NotImplementedError
  end.

(** ** Evaluation

    [fuel] bounds the nesting of [is_satisfied_by] calls, as the
    interpreter's recursion limit does. *)
Fixpoint is_satisfied_by (fuel : nat) (h : heap) (self : ref) (candidate : Candidate)
  : result bool :=
  match fuel with
  | O => Raise RecursionError
  | S fuel' =>
      match h !! self with
      | None => Raise DanglingReference
      | Some (And specifications) =>
          satisfied ← comprehension
            (fun specification => is_satisfied_by fuel' h specification candidate)
            specifications;
          Ok (all satisfied)
      | Some (Or specifications) =>
          satisfied ← comprehension
            (fun specification => is_satisfied_by fuel' h specification candidate)
            specifications;
          Ok (any satisfied)
      | Some (Invert specification) =>
          b ← is_satisfied_by fuel' h specification candidate; Ok (negb b)
      | Some (Xor left' right') =>
          l ← is_satisfied_by fuel' h left' candidate;
          r ← is_satisfied_by fuel' h right' candidate;
          Ok (xorb l r)
      | Some o => leaf_is_satisfied_by o candidate
      end
  end.

(** [remainder_unsatisfied_by]: [And] overrides it, every other class
    inherits [Specification.remainder_unsatisfied_by].  The result is the new
    store and [None] or the reference returned. *)
Definition remainder_unsatisfied_by (fuel : nat) (h : heap) (self : ref)
  (candidate : Candidate) : result (heap * option ref) :=
  match h !! self with
  | Some (And specifications) =>
      match fuel with
      | O => Raise RecursionError
      | S fuel' =>
          non_satisfied ← comprehension_if_not
            (fun specification => is_satisfied_by fuel' h specification candidate)
            specifications;
          match non_satisfied with
          | [] => Ok (h, None)
          | [specification] => Ok (h, Some specification)
          | _ =>
              if (length non_satisfied =? length specifications)%nat
              then Ok (h, Some self)
              else let '(h', r) := alloc h (And non_satisfied) in Ok (h', Some r)
          end
      end
  | _ =>
      b ← is_satisfied_by fuel h self candidate;
      Ok (h, if (b : bool) then None else Some self)
  end.

(** ** Notions used to state the properties *)

(** The children that the candidate leaves unsatisfied: those whose
    evaluation returns [False]. *)
Definition unsatisfied (fuel : nat) (h : heap) (candidate : Candidate)
  (specifications : list ref) : list ref :=
  List.filter
    (fails (fun specification => is_satisfied_by fuel h specification candidate))
    specifications.

(** The key of the candidate that a leaf predicate reads. *)
Definition field (o : Specification) : option string :=
  match o with
  | DirectorBoard | AccountingDepartment | FinancialDepartment | ITDepartment
  | FacilitiesDepartment | CustomerExperienceDepartment => Some "area"
  | Trainee => Some "cargo"
  | SalaryGreaterThan _ _ | SalaryLessThan _ _ | SalaryBetween _ _ _ =>
      Some "salario_bruto"
  | AdmissionTimeInYearsLessThan _ _ | AdmissionTimeInYearsGreaterThan _ _
  | AdmissionTimeInYearsBetween _ _ _ => Some "data_de_admissao"
  | _ => None
  end.

(** Every reference held by an object of the store names an object of the
    store, as is always the case in Python. *)
Definition closed (h : heap) : Prop :=
  forall r o x, h !! r = Some o -> x ∈ children o -> (x < length h)%nat.

(** No [And] is a child of an [And] and no [Or] a child of an [Or]. *)
Definition no_And_in_And (h : heap) : Prop :=
  forall r specifications x,
    h !! r = Some (And specifications) -> x ∈ specifications -> ~ is_And h x.

Definition no_Or_in_Or (h : heap) : Prop :=
  forall r specifications x,
    h !! r = Some (Or specifications) -> x ∈ specifications -> ~ is_Or h x.

Definition flat (h : heap) : Prop := no_And_in_And h /\ no_Or_in_Or h.

End Specifications.

Abbreviation ref := nat.
Abbreviation heap := (list Specification).

(** The base salary a salary predicate divides by. *)
Definition salary_base `{L : Library} (o : Specification) : option Decimal :=
  match o with
  | SalaryGreaterThan _ BASE | SalaryLessThan _ BASE | SalaryBetween _ _ BASE => Some BASE
  | _ => None
  end.


(** ** Printing

    [__repr__] of the classes that define one.  [str(s)] of a specification
    is [repr(s)], no class of the module defining [__str__].  The classes
    that inherit [object.__repr__] print their qualified class name and the
    address of the object, and [pendulum] prints the frozen time: both are
    taken as given, as [object__repr__] and [DateTime__str__]. *)
Section Printing.
Context {L : Library}.
Variable object__repr__ : string -> ref -> string.
Variable DateTime__str__ : DateTime -> string.

(** [self.__class__.__name__]; [BaseSpecification] is taken to be an
    instance of [Specification] itself. *)
Definition __name__ (o : Specification) : string :=
  match o with
  | BaseSpecification => "Specification"
  | And _ => "And"
  | Or _ => "Or"
  | Invert _ => "Invert"
  | Xor _ _ => "Xor"
  | TrueSpecification => "TrueSpecification"
  | FalseSpecification => "FalseSpecification"
  | DirectorBoard => "DirectorBoard"
  | Trainee => "Trainee"
  | AccountingDepartment => "AccountingDepartment"
  | FinancialDepartment => "FinancialDepartment"
  | ITDepartment => "ITDepartment"
  | FacilitiesDepartment => "FacilitiesDepartment"
  | CustomerExperienceDepartment => "CustomerExperienceDepartment"
  | SalaryGreaterThan _ _ => "SalaryGreaterThan"
  | SalaryLessThan _ _ => "SalaryLessThan"
  | SalaryBetween _ _ _ => "SalaryBetween"
  | AdmissionTimeInYearsLessThan _ _ => "AdmissionTimeInYearsLessThan"
  | AdmissionTimeInYearsGreaterThan _ _ => "AdmissionTimeInYearsGreaterThan"
  | AdmissionTimeInYearsBetween _ _ _ => "AdmissionTimeInYearsBetween"
  end.

(** [str(n)] of an [int], as an f-string formats it. *)
Definition str_of_int (n : Z) : string := pretty n.

(** [sep.join(l)]. *)
Definition join (sep : string) (l : list string) : string := String.concat sep l.

(** [__repr__] of the classes other than [And] and [Or]. *)
Definition leaf__repr__ (self : ref) (o : Specification) : string :=
  match o with
  | DirectorBoard => __name__ o +:+ "()"
  | SalaryGreaterThan threshold _ | SalaryLessThan threshold _ =>
      __name__ o +:+ "(threshold=" +:+ str_of_int threshold +:+ ")"
  | SalaryBetween first second _ =>
      __name__ o +:+ "(first=" +:+ str_of_int first
        +:+ ", second=" +:+ str_of_int second +:+ ")"
  | AdmissionTimeInYearsLessThan threshold frozen
  | AdmissionTimeInYearsGreaterThan threshold frozen =>
      __name__ o +:+ "(threshold=" +:+ str_of_int threshold
        +:+ ", current_time=" +:+ DateTime__str__ frozen +:+ ")"
  | AdmissionTimeInYearsBetween initial_threshold end_threshold _ =>
      __name__ o +:+ "(initial=" +:+ str_of_int initial_threshold
        +:+ ", final=" +:+ str_of_int end_threshold +:+ ")"
  | _ => object__repr__ (__name__ o) self
  end.

(** [repr(self)]; [MultaryCompositeSpecification.__repr__] joins the [str]
    of the children with the class name between spaces. *)
Fixpoint __repr__ (fuel : nat) (h : heap) (self : ref) : result string :=
  match fuel with
  | O => Raise RecursionError
  | S fuel' =>
      match h !! self with
      | None => Raise DanglingReference
      | Some (And specifications as o) | Some (Or specifications as o) =>
          strs ← comprehension (fun s => __repr__ fuel' h s) specifications;
          Ok (join (" " +:+ __name__ o +:+ " ") strs)
      | Some o => Ok (leaf__repr__ self o)
      end
  end.

End Printing.

(** ** A library instance for the examples

    ASCII lower-casing, decimal literals of the form [-]digits[.digits], and
    calendar dates written YYYY-MM-DD, taken at midnight: the whole-day
    difference is the difference of the day numbers and the whole-year
    difference counts the anniversaries passed. *)
Module Example.

Definition ascii_lower (c : Ascii.ascii) : Ascii.ascii :=
  let n := Ascii.N_of_ascii c in
  if ((65 <=? n) && (n <=? 90))%N then Ascii.ascii_of_N (n + 32) else c.

Fixpoint string_lower (s : string) : string :=
  match s with
  | EmptyString => EmptyString
  | String c s' => String (ascii_lower c) (string_lower s')
  end.

Definition digit (c : Ascii.ascii) : option N :=
  let n := Ascii.N_of_ascii c in
  if ((48 <=? n) && (n <=? 57))%N then Some (n - 48)%N else None.

(** The number written by a string of digits, after the digits [acc]. *)
Fixpoint digits (s : string) (acc : N) : option N :=
  match s with
  | EmptyString => Some acc
  | String c s' =>
      match digit c with
      | Some d => digits s' (10 * acc + d)%N
      | None => None
      end
  end.

(** Splits at the first ['.']. *)
Fixpoint split_point (s : string) : string * option string :=
  match s with
  | EmptyString => (EmptyString, None)
  | String c s' =>
      if Ascii.eqb c "."%char then (EmptyString, Some s')
      else let '(i, f) := split_point s' in (String c i, f)
  end.

Definition unsigned_literal (sign : bool) (s : string) : option Decimal :=
  let '(i, f) := split_point s in
  let f := default EmptyString f in
  if (String.length i + String.length f =? 0)%nat then None
  else
    match digits (i ++ f) 0 with
    | Some c => Some (Finite sign c (- Z.of_nat (String.length f)))
    | None => None
    end.

Definition decimal_literal (s : string) : option Decimal :=
  match s with
  | String "-"%char s' => unsigned_literal true s'
  | _ => unsigned_literal false s
  end.

Record date := Date { year : Z; month : Z; day : Z }.

Definition is_leap (y : Z) : bool :=
  ((y mod 4 =? 0) && negb (y mod 100 =? 0)) || (y mod 400 =? 0).

Definition days_in_month (y m : Z) : Z :=
  if m =? 2 then (if is_leap y then 29 else 28)
  else if (m =? 4) || (m =? 6) || (m =? 9) || (m =? 11) then 30 else 31.

(** Days since 1970-01-01 in the proleptic Gregorian calendar. *)
Definition day_number (d : date) : Z :=
  let y := if month d <=? 2 then year d - 1 else year d in
  let era := y / 400 in
  let yoe := y - era * 400 in
  let mp := if 2 <? month d then month d - 3 else month d + 9 in
  let doy := (153 * mp + 2) / 5 + day d - 1 in
  let doe := yoe * 365 + yoe / 4 - yoe / 100 + doy in
  era * 146097 + doe - 719468.

Definition number (s : string) : option Z := Z.of_N <$> digits s 0.

Definition parse_date (s : string) : option date :=
  if negb (String.length s =? 10)%nat then None
  else if negb (String.eqb (substring 4 1 s) "-" && String.eqb (substring 7 1 s) "-")
  then None
  else
    y ← number (substring 0 4 s);
    m ← number (substring 5 2 s);
    d ← number (substring 8 2 s);
    if (1 <=? m) && (m <=? 12) && (1 <=? d) && (d <=? days_in_month y m)
    then Some (Date y m d) else None.

Definition date_le (a b : date) : bool := day_number a <=? day_number b.

Definition years_between (a b : date) : Z :=
  year b - year a
  - (if (month b <? month a) || ((month b =? month a) && (day b <? day a)) then 1 else 0).

Definition date_in_years (a f : date) : Z :=
  if date_le a f then years_between a f else years_between f a.

Definition date_in_days (a f : date) : Z := Z.abs (day_number f - day_number a).

#[global] Instance library : Library := {|
  lower := string_lower;
  Decimal_of_str := decimal_literal;
  DateTime := date;
  parse := parse_date;
  in_years := date_in_years;
  in_days := date_in_days
|}.

(** The candidate of the scenarios. *)
Definition analista : Candidate :=
  <["area" := VStr "Tecnologia"]>
  (<["cargo" := VStr "Analista"]>
  (<["salario_bruto" := VStr "5225.00"]>
  (<["data_de_admissao" := VStr "2019-01-01"]> ∅))).

End Example.

(** Printing for the examples: a default [repr] that shows the class name
    and the reference, and dates printed as year-month-day. *)
Module ExamplePrinting.

Definition object__repr__ (name : string) (r : ref) : string :=
  "<" +:+ name +:+ " object at " +:+ pretty r +:+ ">".

Definition DateTime__str__ (d : Example.date) : string :=
  pretty (Example.year d) +:+ "-" +:+ pretty (Example.month d)
    +:+ "-" +:+ pretty (Example.day d).

End ExamplePrinting.

(** * Properties *)

Example div_5225 :
  __truediv__ (Finite false 522500 (-2)) (Finite false 10450 (-1)) = Ok (Finite false 50 (-1)).
Proof. vm_compute. reflexivity. Qed.

Example div_third :
  __truediv__ (Finite false 1 0) (Finite false 3 0)
  = Ok (Finite false 3333333333333333333333333333 (-28)).
Proof. vm_compute. reflexivity. Qed.

Example div_two_thirds :
  __truediv__ (Finite false 2 0) (Finite false 3 0)
  = Ok (Finite false 6666666666666666666666666667 (-28)).
Proof. vm_compute. reflexivity. Qed.

Example div_rounds_29_digits :
  __truediv__ (Finite false (1045 * (10 ^ 28 + 1)) 0) (Finite false 1045 0)
  = Ok (Finite false 1000000000000000000000000000 1).
Proof. vm_compute. reflexivity. Qed.

Example parse_salary : Example.decimal_literal "5225.00" = Some (Finite false 522500 (-2)).
Proof. vm_compute. reflexivity. Qed.

Example parse_admission : Example.parse_date "2019-01-01" = Some (Example.Date 2019 1 1).
Proof. vm_compute. reflexivity. Qed.

Example days_2019_2024 :
  Example.date_in_days (Example.Date 2019 1 1) (Example.Date 2024 1 1) = 1826.
Proof. vm_compute. reflexivity. Qed.

(** ** List comprehensions *)

Section Comprehension.
Context {A B : Type}.
Implicit Types (f g : A -> result B) (l : list A).

Lemma comprehension_app f l1 l2 :
  comprehension f (l1 ++ l2)
  = xs ← comprehension f l1; ys ← comprehension f l2; Ok (xs ++ ys).
Proof.
  induction l1 as [|x l1 IH]; simpl.
  - destruct (comprehension f l2); reflexivity.
  - destruct (f x) as [y|e]; simpl; [|reflexivity].
    rewrite IH. destruct (comprehension f l1); simpl; [|reflexivity].
    destruct (comprehension f l2); reflexivity.
Qed.

Lemma comprehension_ext f g l :
  (forall x, x ∈ l -> f x = g x) -> comprehension f l = comprehension g l.
Proof.
  induction l as [|x l IH]; intros Hfg; simpl; [reflexivity|].
  rewrite (Hfg x) by left.
  rewrite IH; [reflexivity|]. intros y Hy. apply Hfg. right. exact Hy.
Qed.

Lemma comprehension_Ok_inv f l ys :
  comprehension f l = Ok ys -> Forall2 (fun x y => f x = Ok y) l ys.
Proof.
  revert ys. induction l as [|x l IH]; simpl; intros ys H.
  - injection H as <-. constructor.
  - destruct (f x) as [y|e] eqn:Hx; simpl in H; [|discriminate].
    destruct (comprehension f l) as [ys'|e]; simpl in H; [|discriminate].
    injection H as <-. constructor; [exact Hx|]. apply IH. reflexivity.
Qed.

Lemma comprehension_Ok_intro f l ys :
  Forall2 (fun x y => f x = Ok y) l ys -> comprehension f l = Ok ys.
Proof.
  induction 1 as [|x y l ys Hx _ IH]; simpl; [reflexivity|].
  rewrite Hx; simpl. rewrite IH. reflexivity.
Qed.

Lemma comprehension_Ok_elem f l ys x :
  comprehension f l = Ok ys -> x ∈ l -> exists y, f x = Ok y.
Proof.
  intros H Hx. apply comprehension_Ok_inv in H.
  destruct (proj1 (list_elem_of_lookup l x) Hx) as [i Hi].
  destruct (Forall2_lookup_l _ _ _ _ _ H Hi) as (y & _ & Hy). eauto.
Qed.

Lemma comprehension_Ok_mono f g l ys :
  comprehension f l = Ok ys ->
  (forall x y, x ∈ l -> f x = Ok y -> g x = Ok y) ->
  comprehension g l = Ok ys.
Proof.
  intros H Hfg. apply comprehension_Ok_intro.
  apply comprehension_Ok_inv in H.
  induction H as [|x y l ys Hx _ IH]; constructor.
  - apply Hfg; [left|exact Hx].
  - apply IH. intros x' y' Hin. apply Hfg. right. exact Hin.
Qed.

End Comprehension.

Lemma all_app l1 l2 : all (l1 ++ l2) = all l1 && all l2.
Proof. unfold all. apply forallb_app. Qed.

Lemma any_app l1 l2 : any (l1 ++ l2) = any l1 || any l2.
Proof. unfold any. apply existsb_app. Qed.

(** ** Evaluation: recursion depth and framing *)

Section Evaluation.
Context {L : Library}.
Implicit Types (h : heap) (c : Candidate) (o : Specification).

Lemma bind_Ok_inv {A B} (m : result A) (f : A -> result B) (b : B) :
  (x ← m; f x) = Ok b -> exists a, m = Ok a /\ f a = Ok b.
Proof. destruct m as [a|e]; simpl; [eauto|discriminate]. Qed.

Lemma is_satisfied_by_S fuel h self c :
  is_satisfied_by (S fuel) h self c =
  match h !! self with
  | None => Raise DanglingReference
  | Some (And specifications) =>
      satisfied ← comprehension (fun s => is_satisfied_by fuel h s c) specifications;
      Ok (all satisfied)
  | Some (Or specifications) =>
      satisfied ← comprehension (fun s => is_satisfied_by fuel h s c) specifications;
      Ok (any satisfied)
  | Some (Invert specification) =>
      b ← is_satisfied_by fuel h specification c; Ok (negb b)
  | Some (Xor left' right') =>
      l ← is_satisfied_by fuel h left' c;
      r ← is_satisfied_by fuel h right' c;
      Ok (xorb l r)
  | Some o => leaf_is_satisfied_by o c
  end.
Proof. reflexivity. Qed.

(** Evaluation of a node is determined by the evaluation of its children. *)
Lemma is_satisfied_by_children fuel h h' self c o :
  h !! self = Some o -> h' !! self = Some o ->
  (forall y, y ∈ children o ->
     is_satisfied_by fuel h' y c = is_satisfied_by fuel h y c) ->
  is_satisfied_by (S fuel) h' self c = is_satisfied_by (S fuel) h self c.
Proof.
  intros Ho Ho' Hch. rewrite !is_satisfied_by_S, Ho, Ho'.
  destruct o; simpl in Hch; try reflexivity.
  - erewrite comprehension_ext; [reflexivity|]. intros; apply Hch; assumption.
  - erewrite comprehension_ext; [reflexivity|]. intros; apply Hch; assumption.
  - rewrite Hch by (apply list_elem_of_singleton; reflexivity). reflexivity.
  - rewrite !Hch by (rewrite !elem_of_cons; auto). reflexivity.
Qed.

(** A node that evaluates to a boolean has children that do, one level
    deeper. *)
Lemma is_satisfied_by_Ok_children fuel h self c b o y :
  is_satisfied_by (S fuel) h self c = Ok b ->
  h !! self = Some o -> y ∈ children o ->
  exists b', is_satisfied_by fuel h y c = Ok b'.
Proof.
  intros H Ho Hy. rewrite is_satisfied_by_S, Ho in H.
  destruct o; simpl in Hy; try (apply elem_of_nil in Hy; contradiction).
  - apply bind_Ok_inv in H as (bs & H & _).
    exact (comprehension_Ok_elem _ _ _ _ H Hy).
  - apply bind_Ok_inv in H as (bs & H & _).
    exact (comprehension_Ok_elem _ _ _ _ H Hy).
  - apply list_elem_of_singleton in Hy as ->.
    apply bind_Ok_inv in H as (b' & H & _). eauto.
  - apply bind_Ok_inv in H as (l & Hl & H).
    apply bind_Ok_inv in H as (r & Hr & _).
    rewrite !elem_of_cons in Hy. destruct Hy as [->|[->|Hy]]; eauto.
    apply elem_of_nil in Hy; contradiction.
Qed.

(** More recursion depth keeps a boolean result. *)
Lemma is_satisfied_by_S_Ok fuel h self c b :
  is_satisfied_by fuel h self c = Ok b ->
  is_satisfied_by (S fuel) h self c = Ok b.
Proof.
  revert self b. induction fuel as [|fuel IH]; intros self b H; [discriminate|].
  rewrite is_satisfied_by_S in H. rewrite is_satisfied_by_S.
  destruct (h !! self) as [o|]; [|discriminate].
  destruct o; try exact H.
  - apply bind_Ok_inv in H as (bs & H & Hb).
    rewrite (comprehension_Ok_mono _ _ _ _ H); [exact Hb|]. intros; apply IH; assumption.
  - apply bind_Ok_inv in H as (bs & H & Hb).
    rewrite (comprehension_Ok_mono _ _ _ _ H); [exact Hb|]. intros; apply IH; assumption.
  - apply bind_Ok_inv in H as (b' & H & Hb). rewrite (IH _ _ H). exact Hb.
  - apply bind_Ok_inv in H as (l & Hl & H).
    apply bind_Ok_inv in H as (r & Hr & Hb).
    rewrite (IH _ _ Hl), (IH _ _ Hr). exact Hb.
Qed.

Lemma is_satisfied_by_mono fuel fuel' h self c b :
  (fuel <= fuel')%nat ->
  is_satisfied_by fuel h self c = Ok b ->
  is_satisfied_by fuel' h self c = Ok b.
Proof.
  induction 1 as [|fuel' _ IH]; intros H; [exact H|].
  apply is_satisfied_by_S_Ok, IH, H.
Qed.

(** Allocation keeps the boolean results of the objects already there. *)
Lemma is_satisfied_by_alloc fuel h h2 self c b :
  is_satisfied_by fuel h self c = Ok b ->
  is_satisfied_by fuel (h ++ h2) self c = Ok b.
Proof.
  revert self b. induction fuel as [|fuel IH]; intros self b H; [discriminate|].
  rewrite is_satisfied_by_S in H. rewrite is_satisfied_by_S.
  destruct (h !! self) as [o|] eqn:Ho; [|discriminate].
  rewrite (lookup_app_l_Some _ _ _ _ Ho).
  destruct o; try exact H.
  - apply bind_Ok_inv in H as (bs & H & Hb).
    rewrite (comprehension_Ok_mono _ _ _ _ H); [exact Hb|]. intros; apply IH; assumption.
  - apply bind_Ok_inv in H as (bs & H & Hb).
    rewrite (comprehension_Ok_mono _ _ _ _ H); [exact Hb|]. intros; apply IH; assumption.
  - apply bind_Ok_inv in H as (b' & H & Hb). rewrite (IH _ _ H). exact Hb.
  - apply bind_Ok_inv in H as (l & Hl & H).
    apply bind_Ok_inv in H as (r & Hr & Hb).
    rewrite (IH _ _ Hl), (IH _ _ Hr). exact Hb.
Qed.

(** Updating an object that [x] does not reach leaves [x]'s evaluation
    unchanged. *)
Lemma is_satisfied_by_update fuel h a o x c :
  (forall y, reaches h x y -> y <> a) ->
  is_satisfied_by fuel (<[a := o]> h) x c = is_satisfied_by fuel h x c.
Proof.
  revert x. induction fuel as [|fuel IH]; intros x Hx; [reflexivity|].
  assert (Hne : a <> x) by (intros ->; exact (Hx x (reaches_refl h x) eq_refl)).
  destruct (h !! x) as [ox|] eqn:Hox.
  - apply (is_satisfied_by_children fuel h _ x c ox Hox).
    + rewrite list_lookup_insert_ne by exact Hne. exact Hox.
    + intros y Hy. apply IH. intros z Hz. apply Hx.
      exact (reaches_step h x ox y z Hox Hy Hz).
  - rewrite !is_satisfied_by_S. rewrite list_lookup_insert_ne by exact Hne.
    rewrite Hox. reflexivity.
Qed.

(** An object that evaluates to a boolean does not occur below itself. *)
Lemma reaches_Ok fuel h x y c b :
  is_satisfied_by fuel h x c = Ok b -> reaches h x y ->
  exists fuel' b', (fuel' <= fuel)%nat /\ is_satisfied_by fuel' h y c = Ok b'.
Proof.
  intros H Hr. revert fuel b H.
  induction Hr as [x|x o y z Ho Hy _ IH]; intros fuel b H; [eauto|].
  destruct fuel as [|fuel]; [discriminate|].
  destruct (is_satisfied_by_Ok_children _ _ _ _ _ _ _ H Ho Hy) as [b1 H1].
  destruct (IH _ _ H1) as (fuel' & b' & Hle & H'). exists fuel', b'. split; [lia|exact H'].
Qed.

Lemma is_satisfied_by_acyclic fuel h a c b :
  is_satisfied_by fuel h a c = Ok b -> ~ inside h a a.
Proof.
  revert a b. induction (lt_wf fuel) as [fuel _ IH]. intros a b H (o & y & Ho & Hy & Hr).
  destruct fuel as [|fuel]; [discriminate|].
  destruct (is_satisfied_by_Ok_children _ _ _ _ _ _ _ H Ho Hy) as [b1 H1].
  destruct (reaches_Ok _ _ _ _ _ _ H1 Hr) as (fuel' & b' & Hle & H').
  apply (IH fuel' ltac:(lia) a b' H'). exists o, y. auto.
Qed.

Lemma reaches_inv h x z :
  reaches h x z -> x = z \/ inside h z x.
Proof.
  destruct 1 as [x|x o y z Ho Hy Hr]; [left; reflexivity|].
  right. exists o, y. auto.
Qed.

End Evaluation.

(** ** Empty composites *)

Section EmptyComposites.
Context {L : Library}.

(** C8: for every candidate, an [And] node with an empty child list is
    satisfied (vacuously true) and an [Or] node with an empty child list is
    unsatisfied; evaluation of either returns a boolean rather than
    failing. *)
Theorem empty_composite_is_satisfied_by (fuel : nat) (h : heap) (self : ref)
  (c : Candidate) (o : Specification) :
  h !! self = Some o ->
  (o = And [] -> is_satisfied_by (S fuel) h self c = Ok true) /\
  (o = Or [] -> is_satisfied_by (S fuel) h self c = Ok false).
Proof.
  intros Ho. rewrite is_satisfied_by_S, Ho.
  split; intros ->; reflexivity.
Qed.

(** C7, as amended: evaluating [is_satisfied_by] on an [And] or [Or] node
    whose child list has zero children raises no error; it returns a boolean
    at once, [True] for [And] and [False] for [Or], whatever the
    candidate. *)
Theorem empty_composite_raises_nothing (fuel : nat) (h : heap) (self : ref)
  (c : Candidate) :
  (h !! self = Some (And []) ->
   is_satisfied_by (S fuel) h self c = Ok true /\
   forall e, is_satisfied_by (S fuel) h self c <> Raise e) /\
  (h !! self = Some (Or []) ->
   is_satisfied_by (S fuel) h self c = Ok false /\
   forall e, is_satisfied_by (S fuel) h self c <> Raise e).
Proof.
  split; intros Ho; rewrite is_satisfied_by_S, Ho; simpl;
    (split; [reflexivity|intros e; discriminate]).
Qed.

End EmptyComposites.

(** ** The remainder *)

Section Filtering.
Context {A : Type}.
Implicit Types (f : A -> result bool) (l : list A).

Lemma comprehension_total {B} (g : A -> result B) l :
  (forall x, x ∈ l -> exists y, g x = Ok y) -> exists ys, comprehension g l = Ok ys.
Proof.
  induction l as [|x l IH]; intros H; simpl; [eauto|].
  destruct (H x) as [y Hy]; [left|]. rewrite Hy; simpl.
  destruct IH as [ys Hys]; [intros x' Hx'; apply H; right; exact Hx'|].
  rewrite Hys; simpl. eauto.
Qed.

Lemma comprehension_if_not_filter f l bs :
  comprehension f l = Ok bs ->
  comprehension_if_not f l = Ok (List.filter (fails f) l).
Proof.
  revert bs. induction l as [|x l IH]; simpl; intros bs H; [reflexivity|].
  unfold fails at 1.
  destruct (f x) as [b|e]; simpl in *; [|discriminate].
  destruct (comprehension f l) as [bs'|e]; simpl in H; [|discriminate].
  rewrite (IH bs' eq_refl); simpl. destruct b; reflexivity.
Qed.

Lemma comprehension_if_not_inv f l xs :
  comprehension_if_not f l = Ok xs -> exists bs, comprehension f l = Ok bs.
Proof.
  revert xs. induction l as [|x l IH]; simpl; intros xs H; [eauto|].
  destruct (f x) as [b|e]; simpl in *; [|discriminate].
  destruct (comprehension_if_not f l) as [xs'|e]; simpl in H; [|discriminate].
  destruct (IH xs' eq_refl) as [bs Hbs]. rewrite Hbs; simpl. eauto.
Qed.

Lemma all_filter f l bs :
  comprehension f l = Ok bs -> (all bs = true <-> List.filter (fails f) l = []).
Proof.
  revert bs. induction l as [|x l IH]; simpl; intros bs H.
  - injection H as <-. split; reflexivity.
  - unfold fails at 1.
    destruct (f x) as [b|e]; simpl in *; [|discriminate].
    destruct (comprehension f l) as [bs'|e]; simpl in H; [|discriminate].
    injection H as <-. specialize (IH bs' eq_refl).
    destruct b; simpl; [exact IH|]. split; discriminate.
Qed.

Lemma filter_fails f l x : x ∈ List.filter (fails f) l -> f x = Ok false.
Proof.
  rewrite list_elem_of_In, filter_In. intros [_ H]. unfold fails in H.
  destruct (f x) as [[|]|]; congruence.
Qed.

Lemma filter_length_eq (p : A -> bool) l :
  length (List.filter p l) = length l -> List.filter p l = l.
Proof.
  induction l as [|x l IH]; simpl; [reflexivity|].
  destruct (p x); simpl; intros H.
  - f_equal. apply IH. lia.
  - pose proof (List.filter_length_le p l). lia.
Qed.

End Filtering.

Section Remainder.
Context {L : Library}.
Implicit Types (h : heap) (c : Candidate).

(** C1: for every [And] node and every candidate,
    [remainder_unsatisfied_by] computes the subset of children unsatisfied
    by the candidate and returns: null if the subset is empty; the single
    child itself if exactly one child is unsatisfied; the [And] node itself
    if every child is unsatisfied; and otherwise a new [And] built from
    exactly the unsatisfied children.  The cases are tried in this order, so
    an [And] with a single child that fails returns the child. *)
Theorem And_remainder_unsatisfied_by (fuel : nat) (h : heap) (self : ref)
  (specifications : list ref) (c : Candidate) :
  h !! self = Some (And specifications) ->
  (forall s, s ∈ specifications -> exists b, is_satisfied_by fuel h s c = Ok b) ->
  let non_satisfied := unsatisfied fuel h c specifications in
  let remainder := remainder_unsatisfied_by (S fuel) h self c in
  (non_satisfied = [] -> remainder = Ok (h, None)) /\
  (forall child, non_satisfied = [child] -> remainder = Ok (h, Some child)) /\
  ((1 < length non_satisfied)%nat -> non_satisfied = specifications ->
     remainder = Ok (h, Some self)) /\
  ((1 < length non_satisfied)%nat -> non_satisfied <> specifications ->
     remainder = Ok (h ++ [And non_satisfied], Some (length h))).
Proof.
  intros Ho Hch non_satisfied remainder.
  destruct (comprehension_total _ _ Hch) as [bs Hbs].
  assert (Hr : remainder =
    match non_satisfied with
    | [] => Ok (h, None)
    | [child] => Ok (h, Some child)
    | _ => if (length non_satisfied =? length specifications)%nat
           then Ok (h, Some self)
           else Ok (h ++ [And non_satisfied], Some (length h))
    end).
  { unfold remainder, remainder_unsatisfied_by. rewrite Ho.
    rewrite (comprehension_if_not_filter _ _ _ Hbs). reflexivity. }
  rewrite Hr. clear Hr. repeat split.
  - intros ->. reflexivity.
  - intros child ->. reflexivity.
  - intros Hlen Heq. destruct non_satisfied as [|x [|y l]]; simpl in Hlen; try lia.
    rewrite Heq, Nat.eqb_refl. reflexivity.
  - intros Hlen Hne. destruct non_satisfied as [|x [|y l]] eqn:E; simpl in Hlen; try lia.
    destruct (Nat.eqb_spec (length (x :: y :: l)) (length specifications)) as [Hl|Hl];
      [|reflexivity].
    exfalso. apply Hne. rewrite <- E in *. apply filter_length_eq. exact Hl.
Qed.

Lemma remainder_unsatisfied_by_default fuel h self c :
  ~ is_And h self ->
  remainder_unsatisfied_by fuel h self c
  = b ← is_satisfied_by fuel h self c; Ok (h, if (b : bool) then None else Some self).
Proof.
  intros Hnot. unfold remainder_unsatisfied_by.
  destruct (h !! self) as [o|] eqn:Ho; [|reflexivity].
  destruct o; try reflexivity. exfalso. apply Hnot. eexists. exact Ho.
Qed.

Lemma And_dec (o : Specification) :
  (exists specifications, o = And specifications) \/
  (forall specifications, o <> And specifications).
Proof. destruct o; try (right; intros l; discriminate). left. eauto. Qed.

Lemma comprehension_const {A B} (g : A -> result B) (l : list A) (v : B) :
  (forall x, x ∈ l -> g x = Ok v) -> comprehension g l = Ok (repeat v (length l)).
Proof.
  induction l as [|x l IH]; intros H; simpl; [reflexivity|].
  rewrite (H x) by left. simpl. rewrite IH; [reflexivity|].
  intros y Hy. apply H. right. exact Hy.
Qed.

Lemma all_repeat_false n : all (repeat false (S n)) = false.
Proof. reflexivity. Qed.

(** The remainder of an [And] whose children all evaluate. *)
Lemma remainder_unsatisfied_by_And fuel h self specifications c bs :
  h !! self = Some (And specifications) ->
  comprehension (fun s => is_satisfied_by fuel h s c) specifications = Ok bs ->
  is_satisfied_by (S fuel) h self c = Ok (all bs) /\
  remainder_unsatisfied_by (S fuel) h self c =
    match unsatisfied fuel h c specifications with
    | [] => Ok (h, None)
    | [child] => Ok (h, Some child)
    | _ =>
        if (length (unsatisfied fuel h c specifications) =? length specifications)%nat
        then Ok (h, Some self)
        else Ok (h ++ [And (unsatisfied fuel h c specifications)], Some (length h))
    end.
Proof.
  intros Ho Hbs. split.
  - rewrite is_satisfied_by_S, Ho, Hbs. reflexivity.
  - unfold remainder_unsatisfied_by, unsatisfied. rewrite Ho.
    rewrite (comprehension_if_not_filter _ _ _ Hbs).
    destruct (List.filter _ specifications) as [|? [|? ?]]; reflexivity.
Qed.

(** The unsatisfied children, gathered in a new [And], are unsatisfied
    together. *)
Lemma is_satisfied_by_new_And fuel h c specifications x l :
  unsatisfied fuel h c specifications = x :: l ->
  is_satisfied_by (S fuel) (h ++ [And (x :: l)]) (length h) c = Ok false.
Proof.
  intros E. rewrite is_satisfied_by_S, list_lookup_middle by reflexivity.
  rewrite (comprehension_const _ _ false); [reflexivity|].
  intros y Hy. apply is_satisfied_by_alloc.
  rewrite <- E in Hy. exact (filter_fails _ _ _ Hy).
Qed.

Local Abbreviation remainder_contract fuel h self c :=
  (((exists h', remainder_unsatisfied_by fuel h self c = Ok (h', None)) <->
      is_satisfied_by fuel h self c = Ok true) /\
   (forall b, is_satisfied_by fuel h self c = Ok b ->
      exists h' r, remainder_unsatisfied_by fuel h self c = Ok (h', r)) /\
   (forall h' r, remainder_unsatisfied_by fuel h self c = Ok (h', Some r) ->
      is_satisfied_by fuel h self c = Ok false /\
      (~ is_And h self -> h' = h /\ r = self) /\
      is_satisfied_by fuel h' r c = Ok false)).

Lemma remainder_contract_default fuel h self c :
  ~ is_And h self ->
  remainder_contract fuel h self c.
Proof.
  intros Hnot. rewrite (remainder_unsatisfied_by_default _ _ _ _ Hnot).
  destruct (is_satisfied_by fuel h self c) as [[|]|e] eqn:E; simpl.
  - split; [split; eauto|split]; [eauto|]. intros h' r H; discriminate.
  - split; [split; [intros [h' H]|intros H]; discriminate|split]; [eauto|].
    intros h' r H. injection H as <- <-. auto.
  - split; [split; [intros [h' H]|intros H]; discriminate|split];
      intros; discriminate.
Qed.

Lemma remainder_contract_And fuel h self specifications c :
  h !! self = Some (And specifications) ->
  remainder_contract fuel h self c.
Proof.
  intros Ho. assert (HAnd : is_And h self) by (eexists; exact Ho).
  destruct fuel as [|fuel].
  { unfold remainder_unsatisfied_by. rewrite Ho. simpl.
    split; [split; [intros [h' H]|intros H]; discriminate|split]; intros; discriminate. }
  destruct (comprehension (fun s => is_satisfied_by fuel h s c) specifications)
    as [bs|e] eqn:Hbs.
  2: { assert (Hrem : forall v, remainder_unsatisfied_by (S fuel) h self c <> Ok v).
       { intros v H. unfold remainder_unsatisfied_by in H. rewrite Ho in H.
         apply bind_Ok_inv in H as (xs & H & _).
         apply comprehension_if_not_inv in H as [bs' H]. congruence. }
       assert (Hev : forall b, is_satisfied_by (S fuel) h self c <> Ok b).
       { intros b H. rewrite is_satisfied_by_S, Ho, Hbs in H. discriminate. }
       split; [split; [intros [h' H]|intros H]|split].
       - destruct (Hrem _ H).
       - destruct (Hev _ H).
       - intros b H. destruct (Hev _ H).
       - intros h' r H. destruct (Hrem _ H). }
  destruct (remainder_unsatisfied_by_And _ _ _ _ _ _ Ho Hbs) as [Hev Hrem].
  pose proof (all_filter _ _ _ Hbs) as Hall.
  fold (unsatisfied fuel h c specifications) in Hall.
  rewrite Hrem.
  destruct (unsatisfied fuel h c specifications) as [|x l] eqn:E.
  { rewrite Hev, (proj2 Hall eq_refl).
    split; [split; eauto|split]; [eauto|]. intros h' r H; discriminate. }
  assert (Hf : is_satisfied_by (S fuel) h self c = Ok false).
  { rewrite Hev. destruct (all bs); [|reflexivity].
    destruct Hall as [Hall _]. discriminate (Hall eq_refl). }
  rewrite Hf. split; [|split].
  - split; [intros [h' H]|intros H; discriminate].
    destruct l; [discriminate|]. destruct (_ =? _)%nat; discriminate.
  - intros b _. destruct l; [eauto|]. destruct (_ =? _)%nat; eauto.
  - intros h' r H. split; [reflexivity|]. split; [intros Hnot; destruct (Hnot HAnd)|].
    destruct l as [|y l].
    + injection H as <- <-. apply is_satisfied_by_S_Ok.
      apply (filter_fails (fun s => is_satisfied_by fuel h s c) specifications).
      fold (unsatisfied fuel h c specifications). rewrite E. left.
    + destruct (_ =? _)%nat; injection H as <- <-; [exact Hf|].
      exact (is_satisfied_by_new_And _ _ _ _ _ _ E).
Qed.

(** C10: for every specification variant and every candidate,
    [remainder_unsatisfied_by] returns null if and only if [is_satisfied_by]
    returns true; it returns whenever [is_satisfied_by] returns a boolean;
    for variants that do not override it the non-null result is the node
    itself, the store unchanged; and every non-null remainder (the
    [And]-specific one included) is itself unsatisfied by that same
    candidate. *)
Theorem remainder_unsatisfied_by_sound (fuel : nat) (h : heap) (self : ref)
  (c : Candidate) :
  ((exists h', remainder_unsatisfied_by fuel h self c = Ok (h', None)) <->
     is_satisfied_by fuel h self c = Ok true) /\
  (forall b, is_satisfied_by fuel h self c = Ok b ->
     exists h' r, remainder_unsatisfied_by fuel h self c = Ok (h', r)) /\
  (forall h' r, remainder_unsatisfied_by fuel h self c = Ok (h', Some r) ->
     is_satisfied_by fuel h self c = Ok false /\
     (~ is_And h self -> h' = h /\ r = self) /\
     is_satisfied_by fuel h' r c = Ok false).
Proof.
  destruct (h !! self) as [o|] eqn:Ho.
  - destruct (And_dec o) as [[specifications ->]|Hnot].
    + exact (remainder_contract_And fuel h self specifications c Ho).
    + apply remainder_contract_default. intros [l Hl].
      rewrite Ho in Hl. apply (Hnot l). congruence.
  - apply remainder_contract_default. intros [l Hl]. congruence.
Qed.

End Remainder.

(** ** Composition *)

Section Composition.
Context {L : Library}.
Implicit Types (h : heap) (c : Candidate).

Lemma and_new h self other :
  ~ is_And h self -> __and__ h self other = (h ++ [And [self; other]], length h).
Proof.
  intros Hnot. unfold __and__, alloc.
  destruct (h !! self) as [o|] eqn:Ho; [|reflexivity].
  destruct o; try reflexivity. exfalso. apply Hnot. eexists. exact Ho.
Qed.

Lemma and_merge h self other specifications other_specifications :
  h !! self = Some (And specifications) ->
  h !! other = Some (And other_specifications) ->
  __and__ h self other
  = (<[self := And (specifications ++ other_specifications)]> h, self).
Proof. intros Hs Ho. unfold __and__. rewrite Hs, Ho. reflexivity. Qed.

Lemma and_append h self other specifications :
  h !! self = Some (And specifications) -> ~ is_And h other ->
  __and__ h self other = (<[self := And (specifications ++ [other])]> h, self).
Proof.
  intros Hs Hnot. unfold __and__. rewrite Hs.
  destruct (h !! other) as [o|] eqn:Ho; [|reflexivity].
  destruct o; try reflexivity. exfalso. apply Hnot. eexists. exact Ho.
Qed.

Lemma or_new h self other :
  ~ is_Or h self -> __or__ h self other = (h ++ [Or [self; other]], length h).
Proof.
  intros Hnot. unfold __or__, alloc.
  destruct (h !! self) as [o|] eqn:Ho; [|reflexivity].
  destruct o; try reflexivity. exfalso. apply Hnot. eexists. exact Ho.
Qed.

Lemma or_merge h self other specifications other_specifications :
  h !! self = Some (Or specifications) ->
  h !! other = Some (Or other_specifications) ->
  __or__ h self other
  = (<[self := Or (specifications ++ other_specifications)]> h, self).
Proof. intros Hs Ho. unfold __or__. rewrite Hs, Ho. reflexivity. Qed.

Lemma or_append h self other specifications :
  h !! self = Some (Or specifications) -> ~ is_Or h other ->
  __or__ h self other = (<[self := Or (specifications ++ [other])]> h, self).
Proof.
  intros Hs Hnot. unfold __or__. rewrite Hs.
  destruct (h !! other) as [o|] eqn:Ho; [|reflexivity].
  destruct o; try reflexivity. exfalso. apply Hnot. eexists. exact Ho.
Qed.

Lemma is_And_dec h r : is_And h r \/ ~ is_And h r.
Proof.
  unfold is_And. destruct (h !! r) as [o|]; [|right; intros [l Hl]; discriminate].
  destruct (And_dec o) as [[l ->]|Hnot]; [left; eauto|].
  right. intros [l Hl]. apply (Hnot l). congruence.
Qed.

Lemma Or_dec (o : Specification) :
  (exists specifications, o = Or specifications) \/
  (forall specifications, o <> Or specifications).
Proof. destruct o; try (right; intros l; discriminate). left. eauto. Qed.

Lemma is_Or_dec h r : is_Or h r \/ ~ is_Or h r.
Proof.
  unfold is_Or. destruct (h !! r) as [o|]; [|right; intros [l Hl]; discriminate].
  destruct (Or_dec o) as [[l ->]|Hnot]; [left; eauto|].
  right. intros [l Hl]. apply (Hnot l). congruence.
Qed.

(** Below a node that evaluates, after an update of an object that is not
    below it. *)
Lemma is_satisfied_by_below fuel h a o z c v :
  is_satisfied_by fuel h z c = Ok v -> ~ reaches h z a ->
  is_satisfied_by (S fuel) (<[a := o]> h) z c = Ok v.
Proof.
  intros Hz Hr. apply is_satisfied_by_S_Ok. rewrite is_satisfied_by_update; [exact Hz|].
  intros y Hy ->. exact (Hr Hy).
Qed.

Lemma comprehension_below fuel h a o l c vs :
  comprehension (fun s => is_satisfied_by fuel h s c) l = Ok vs ->
  (forall z, z ∈ l -> ~ reaches h z a) ->
  comprehension (fun s => is_satisfied_by (S fuel) (<[a := o]> h) s c) l = Ok vs.
Proof.
  intros Hl Hr. apply (comprehension_Ok_mono _ _ _ _ Hl).
  intros z v Hz Hv. apply is_satisfied_by_below; [exact Hv|exact (Hr z Hz)].
Qed.

Lemma is_satisfied_by_and fuel h a b c x y :
  is_satisfied_by fuel h a c = Ok x ->
  is_satisfied_by fuel h b c = Ok y ->
  (is_And h a -> ~ inside h a b) ->
  is_satisfied_by (S fuel) (__and__ h a b).1 (__and__ h a b).2 c = Ok (x && y).
Proof.
  intros Ha Hb Hshare. destruct (is_And_dec h a) as [[la Hoa]|Hnot].
  2: { rewrite (and_new _ _ _ Hnot). cbn [fst snd].
       rewrite is_satisfied_by_S, list_lookup_middle by reflexivity. simpl.
       rewrite (is_satisfied_by_alloc _ _ _ _ _ _ Ha),
               (is_satisfied_by_alloc _ _ _ _ _ _ Hb). simpl.
       rewrite andb_true_r. reflexivity. }
  assert (Hin : ~ inside h a b) by (apply Hshare; eexists; exact Hoa).
  assert (Hlt : (a < length h)%nat) by (eapply lookup_lt_Some; exact Hoa).
  pose proof (is_satisfied_by_acyclic _ _ _ _ _ Ha) as Hacyc.
  destruct fuel as [|fuel]; [discriminate|].
  pose proof Ha as Ha'. rewrite is_satisfied_by_S, Hoa in Ha'.
  apply bind_Ok_inv in Ha' as (xs & Hxs & Hx). injection Hx as <-.
  assert (Hla : forall z, z ∈ la -> ~ reaches h z a).
  { intros z Hz Hr. apply Hacyc. exists (And la), z. auto. }
  destruct (is_And_dec h b) as [[lb Hob]|Hnotb].
  - rewrite (and_merge _ _ _ _ _ Hoa Hob). cbn [fst snd].
    pose proof Hb as Hb'. rewrite is_satisfied_by_S, Hob in Hb'.
    apply bind_Ok_inv in Hb' as (ys & Hys & Hy). injection Hy as <-.
    rewrite is_satisfied_by_S, list_lookup_insert_eq by exact Hlt.
    assert (Hlb : forall z, z ∈ lb -> ~ reaches h z a).
    { intros z Hz Hr. apply Hin. exists (And lb), z. auto. }
    rewrite comprehension_app.
    rewrite (comprehension_below _ _ _ _ _ _ _ Hxs Hla).
    rewrite (comprehension_below _ _ _ _ _ _ _ Hys Hlb).
    cbn [mbind result_bind]. rewrite all_app. reflexivity.
  - rewrite (and_append _ _ _ _ Hoa Hnotb). cbn [fst snd].
    rewrite is_satisfied_by_S, list_lookup_insert_eq by exact Hlt.
    assert (Hb' : is_satisfied_by (S fuel) (<[a := And (la ++ [b])]> h) b c = Ok y).
    { rewrite is_satisfied_by_update; [exact Hb|].
      intros w Hw ->. apply reaches_inv in Hw as [->|Hw]; [|exact (Hin Hw)].
      apply Hnotb. eexists. exact Hoa. }
    rewrite comprehension_app.
    rewrite (comprehension_below _ _ _ _ _ _ _ Hxs Hla).
    cbn [comprehension mbind result_bind]. rewrite Hb'.
    cbn [mbind result_bind]. rewrite all_app. cbn [all forallb id].
    rewrite andb_true_r. reflexivity.
Qed.
Lemma is_satisfied_by_or fuel h a b c x y :
  is_satisfied_by fuel h a c = Ok x ->
  is_satisfied_by fuel h b c = Ok y ->
  (is_Or h a -> ~ inside h a b) ->
  is_satisfied_by (S fuel) (__or__ h a b).1 (__or__ h a b).2 c = Ok (x || y).
Proof.
  intros Ha Hb Hshare. destruct (is_Or_dec h a) as [[la Hoa]|Hnot].
  2: { rewrite (or_new _ _ _ Hnot). cbn [fst snd].
       rewrite is_satisfied_by_S, list_lookup_middle by reflexivity. simpl.
       rewrite (is_satisfied_by_alloc _ _ _ _ _ _ Ha),
               (is_satisfied_by_alloc _ _ _ _ _ _ Hb). simpl.
       rewrite orb_false_r. reflexivity. }
  assert (Hin : ~ inside h a b) by (apply Hshare; eexists; exact Hoa).
  assert (Hlt : (a < length h)%nat) by (eapply lookup_lt_Some; exact Hoa).
  pose proof (is_satisfied_by_acyclic _ _ _ _ _ Ha) as Hacyc.
  destruct fuel as [|fuel]; [discriminate|].
  pose proof Ha as Ha'. rewrite is_satisfied_by_S, Hoa in Ha'.
  apply bind_Ok_inv in Ha' as (xs & Hxs & Hx). injection Hx as <-.
  assert (Hla : forall z, z ∈ la -> ~ reaches h z a).
  { intros z Hz Hr. apply Hacyc. exists (Or la), z. auto. }
  destruct (is_Or_dec h b) as [[lb Hob]|Hnotb].
  - rewrite (or_merge _ _ _ _ _ Hoa Hob). cbn [fst snd].
    pose proof Hb as Hb'. rewrite is_satisfied_by_S, Hob in Hb'.
    apply bind_Ok_inv in Hb' as (ys & Hys & Hy). injection Hy as <-.
    rewrite is_satisfied_by_S, list_lookup_insert_eq by exact Hlt.
    assert (Hlb : forall z, z ∈ lb -> ~ reaches h z a).
    { intros z Hz Hr. apply Hin. exists (Or lb), z. auto. }
    rewrite comprehension_app.
    rewrite (comprehension_below _ _ _ _ _ _ _ Hxs Hla).
    rewrite (comprehension_below _ _ _ _ _ _ _ Hys Hlb).
    cbn [mbind result_bind]. rewrite any_app. reflexivity.
  - rewrite (or_append _ _ _ _ Hoa Hnotb). cbn [fst snd].
    rewrite is_satisfied_by_S, list_lookup_insert_eq by exact Hlt.
    assert (Hb' : is_satisfied_by (S fuel) (<[a := Or (la ++ [b])]> h) b c = Ok y).
    { rewrite is_satisfied_by_update; [exact Hb|].
      intros w Hw ->. apply reaches_inv in Hw as [->|Hw]; [|exact (Hin Hw)].
      apply Hnotb. eexists. exact Hoa. }
    rewrite comprehension_app.
    rewrite (comprehension_below _ _ _ _ _ _ _ Hxs Hla).
    cbn [comprehension mbind result_bind]. rewrite Hb'.
    cbn [mbind result_bind]. rewrite any_app. cbn [any existsb id].
    rewrite orb_false_r. reflexivity.
Qed.
Lemma is_satisfied_by_xor fuel h a b c x y :
  is_satisfied_by fuel h a c = Ok x ->
  is_satisfied_by fuel h b c = Ok y ->
  is_satisfied_by (S fuel) (__xor__ h a b).1 (__xor__ h a b).2 c = Ok (xorb x y).
Proof.
  intros Ha Hb. unfold __xor__, alloc. cbn [fst snd].
  rewrite is_satisfied_by_S, list_lookup_middle by reflexivity.
  rewrite (is_satisfied_by_alloc _ _ _ _ _ _ Ha), (is_satisfied_by_alloc _ _ _ _ _ _ Hb).
  reflexivity.
Qed.

Lemma is_satisfied_by_invert fuel h a c x :
  is_satisfied_by fuel h a c = Ok x ->
  is_satisfied_by (S fuel) (__invert__ h a).1 (__invert__ h a).2 c = Ok (negb x).
Proof.
  intros Ha. unfold __invert__, alloc. cbn [fst snd].
  rewrite is_satisfied_by_S, list_lookup_middle by reflexivity.
  rewrite (is_satisfied_by_alloc _ _ _ _ _ _ Ha). reflexivity.
Qed.

(** C2, as amended: for all specifications [a], [b] that evaluate to
    booleans on a candidate [c]: [(a XOR b).is_satisfied_by(c)] is the
    exclusive-or of the two results ((T,T) to F, (T,F) to T, (F,T) to T,
    (F,F) to F) and [(NOT a).is_satisfied_by(c)] is the negation;
    [(a AND b).is_satisfied_by(c)] is the conjunction provided that [a], when
    it is an [And] node, does not occur inside [b], and
    [(a OR b).is_satisfied_by(c)] is the disjunction provided that [a], when
    it is an [Or] node, does not occur inside [b].  ([a & b] extends an
    [And] [a] in place; with [a] inside [b] the node would come to contain
    itself.) *)
Theorem composition_is_satisfied_by (fuel : nat) (h : heap) (a b : ref)
  (c : Candidate) (x y : bool) :
  is_satisfied_by fuel h a c = Ok x ->
  is_satisfied_by fuel h b c = Ok y ->
  ((is_And h a -> ~ inside h a b) ->
     is_satisfied_by (S fuel) (__and__ h a b).1 (__and__ h a b).2 c = Ok (x && y)) /\
  ((is_Or h a -> ~ inside h a b) ->
     is_satisfied_by (S fuel) (__or__ h a b).1 (__or__ h a b).2 c = Ok (x || y)) /\
  is_satisfied_by (S fuel) (__xor__ h a b).1 (__xor__ h a b).2 c = Ok (xorb x y) /\
  is_satisfied_by (S fuel) (__invert__ h a).1 (__invert__ h a).2 c = Ok (negb x) /\
  (xorb true true = false /\ xorb true false = true /\
   xorb false true = true /\ xorb false false = false).
Proof.
  intros Ha Hb. split; [|split; [|split; [|split]]].
  - exact (is_satisfied_by_and _ _ _ _ _ _ _ Ha Hb).
  - exact (is_satisfied_by_or _ _ _ _ _ _ _ Ha Hb).
  - exact (is_satisfied_by_xor _ _ _ _ _ _ _ Ha Hb).
  - exact (is_satisfied_by_invert _ _ _ _ _ Ha).
  - repeat split.
Qed.

Lemma and_and h (a b c : ref) :
  ~ is_And h a -> ~ is_And h c -> (c < length h)%nat ->
  __and__ (__and__ h a b).1 (__and__ h a b).2 c = (h ++ [And [a; b; c]], length h).
Proof.
  intros Ha Hc Hlt. rewrite (and_new _ _ _ Ha). cbn [fst snd].
  rewrite (and_append _ _ _ [a; b]).
  - rewrite insert_app_r_alt, Nat.sub_diag by lia. reflexivity.
  - apply list_lookup_middle. reflexivity.
  - intros [l Hl]. apply Hc. exists l. rewrite lookup_app_l in Hl by exact Hlt. exact Hl.
Qed.

Lemma or_or h (a b c : ref) :
  ~ is_Or h a -> ~ is_Or h c -> (c < length h)%nat ->
  __or__ (__or__ h a b).1 (__or__ h a b).2 c = (h ++ [Or [a; b; c]], length h).
Proof.
  intros Ha Hc Hlt. rewrite (or_new _ _ _ Ha). cbn [fst snd].
  rewrite (or_append _ _ _ [a; b]).
  - rewrite insert_app_r_alt, Nat.sub_diag by lia. reflexivity.
  - apply list_lookup_middle. reflexivity.
  - intros [l Hl]. apply Hc. exists l. rewrite lookup_app_l in Hl by exact Hlt. exact Hl.
Qed.

Lemma is_satisfied_by_three fuel h (a b c : ref) (cand : Candidate) x y z o :
  is_satisfied_by fuel h a cand = Ok x ->
  is_satisfied_by fuel h b cand = Ok y ->
  is_satisfied_by fuel h c cand = Ok z ->
  comprehension (fun s => is_satisfied_by fuel (h ++ [o]) s cand) [a; b; c] = Ok [x; y; z].
Proof.
  intros Ha Hb Hc. cbn [comprehension].
  rewrite (is_satisfied_by_alloc _ _ _ _ _ _ Ha), (is_satisfied_by_alloc _ _ _ _ _ _ Hb),
    (is_satisfied_by_alloc _ _ _ _ _ _ Hc). reflexivity.
Qed.
(** C3: for all specifications [a], [b], [c] of which [a] and [c] are not
    [And] nodes, building [(a AND b) AND c] produces a single [And] node with
    exactly 3 children in order [a, b, c], and it evaluates to the same
    boolean as the nested form [a && b && c] for every candidate; combining
    two [And]-typed operands concatenates the right operand's child list onto
    the left operand (left children before right), which is returned; the
    same holds symmetrically for [Or]. *)
Theorem and_or_flattening (h : heap) (a b c : ref) :
  (~ is_And h a -> ~ is_And h c -> (c < length h)%nat ->
     let ab := __and__ h a b in
     let abc := __and__ ab.1 ab.2 c in
     abc.2 = ab.2 /\ abc.1 = h ++ [And [a; b; c]] /\
     abc.1 !! abc.2 = Some (And [a; b; c]) /\
     forall fuel (candidate : Candidate) x y z,
       is_satisfied_by fuel h a candidate = Ok x ->
       is_satisfied_by fuel h b candidate = Ok y ->
       is_satisfied_by fuel h c candidate = Ok z ->
       is_satisfied_by (S fuel) abc.1 abc.2 candidate = Ok (x && y && z)) /\
  (forall la lb, h !! a = Some (And la) -> h !! b = Some (And lb) ->
     (__and__ h a b).2 = a /\
     (__and__ h a b).1 = <[a := And (la ++ lb)]> h /\
     (__and__ h a b).1 !! a = Some (And (la ++ lb))) /\
  (~ is_Or h a -> ~ is_Or h c -> (c < length h)%nat ->
     let ab := __or__ h a b in
     let abc := __or__ ab.1 ab.2 c in
     abc.2 = ab.2 /\ abc.1 = h ++ [Or [a; b; c]] /\
     abc.1 !! abc.2 = Some (Or [a; b; c]) /\
     forall fuel (candidate : Candidate) x y z,
       is_satisfied_by fuel h a candidate = Ok x ->
       is_satisfied_by fuel h b candidate = Ok y ->
       is_satisfied_by fuel h c candidate = Ok z ->
       is_satisfied_by (S fuel) abc.1 abc.2 candidate = Ok (x || y || z)) /\
  (forall la lb, h !! a = Some (Or la) -> h !! b = Some (Or lb) ->
     (__or__ h a b).2 = a /\
     (__or__ h a b).1 = <[a := Or (la ++ lb)]> h /\
     (__or__ h a b).1 !! a = Some (Or (la ++ lb))).
Proof.
  split; [|split; [|split]].
  - intros Ha Hc Hlt ab abc. unfold abc, ab. rewrite (and_and h a b c Ha Hc Hlt).
    rewrite (and_new _ _ _ Ha). cbn [fst snd].
    split; [reflexivity|]. split; [reflexivity|].
    split; [apply list_lookup_middle; reflexivity|].
    intros fuel candidate x y z Hx Hy Hz.
    rewrite is_satisfied_by_S, list_lookup_middle by reflexivity.
    rewrite (is_satisfied_by_three _ _ _ _ _ _ _ _ _ _ Hx Hy Hz).
    cbn. rewrite andb_true_r, andb_assoc. reflexivity.
  - intros la lb Ha Hb. rewrite (and_merge _ _ _ _ _ Ha Hb). cbn [fst snd].
    split; [reflexivity|]. split; [reflexivity|].
    apply list_lookup_insert_eq. eapply lookup_lt_Some. exact Ha.
  - intros Ha Hc Hlt ab abc. unfold abc, ab. rewrite (or_or h a b c Ha Hc Hlt).
    rewrite (or_new _ _ _ Ha). cbn [fst snd].
    split; [reflexivity|]. split; [reflexivity|].
    split; [apply list_lookup_middle; reflexivity|].
    intros fuel candidate x y z Hx Hy Hz.
    rewrite is_satisfied_by_S, list_lookup_middle by reflexivity.
    rewrite (is_satisfied_by_three _ _ _ _ _ _ _ _ _ _ Hx Hy Hz).
    cbn. rewrite orb_false_r, orb_assoc. reflexivity.
  - intros la lb Ha Hb. rewrite (or_merge _ _ _ _ _ Ha Hb). cbn [fst snd].
    split; [reflexivity|]. split; [reflexivity|].
    apply list_lookup_insert_eq. eapply lookup_lt_Some. exact Ha.
Qed.

End Composition.

(** ** The flattening invariant *)

Section Flattening.
Context {L : Library}.
Implicit Types (h : heap) (o : Specification).

Lemma closed_alloc h o :
  closed h -> (forall x, x ∈ children o -> (x < length h)%nat) -> closed (h ++ [o]).
Proof.
  intros Hc Ho r o' x Hr Hx. rewrite length_app. simpl.
  apply lookup_snoc_Some in Hr as [[_ Hr]|[_ <-]].
  - pose proof (Hc r o' x Hr Hx). lia.
  - pose proof (Ho x Hx). lia.
Qed.

Lemma closed_update h a o :
  closed h -> (forall x, x ∈ children o -> (x < length h)%nat) -> closed (<[a := o]> h).
Proof.
  intros Hc Ho r o' x Hr Hx. rewrite length_insert.
  apply list_lookup_insert_Some in Hr as [(_ & <- & _)|[_ Hr]].
  - exact (Ho x Hx).
  - exact (Hc r o' x Hr Hx).
Qed.

(** Updating an [And] in place changes the kind of no object. *)
Lemma is_And_update_And h a la l x :
  h !! a = Some (And la) -> is_And (<[a := And l]> h) x <-> is_And h x.
Proof.
  intros Ha. assert (Hlt : (a < length h)%nat) by (eapply lookup_lt_Some; exact Ha).
  unfold is_And. destruct (decide (a = x)) as [<-|Hne].
  - rewrite list_lookup_insert_eq by exact Hlt. split; eauto.
  - rewrite list_lookup_insert_ne by exact Hne. reflexivity.
Qed.

Lemma is_Or_update_And h a la l x :
  h !! a = Some (And la) -> is_Or (<[a := And l]> h) x <-> is_Or h x.
Proof.
  intros Ha. assert (Hlt : (a < length h)%nat) by (eapply lookup_lt_Some; exact Ha).
  unfold is_Or. destruct (decide (a = x)) as [<-|Hne].
  - rewrite list_lookup_insert_eq by exact Hlt. rewrite Ha.
    split; intros [l' Hl']; discriminate.
  - rewrite list_lookup_insert_ne by exact Hne. reflexivity.
Qed.

(** Updating an [Or] in place changes the kind of no object. *)
Lemma is_Or_update_Or h a la l x :
  h !! a = Some (Or la) -> is_Or (<[a := Or l]> h) x <-> is_Or h x.
Proof.
  intros Ha. assert (Hlt : (a < length h)%nat) by (eapply lookup_lt_Some; exact Ha).
  unfold is_Or. destruct (decide (a = x)) as [<-|Hne].
  - rewrite list_lookup_insert_eq by exact Hlt. split; eauto.
  - rewrite list_lookup_insert_ne by exact Hne. reflexivity.
Qed.

Lemma is_And_update_Or h a la l x :
  h !! a = Some (Or la) -> is_And (<[a := Or l]> h) x <-> is_And h x.
Proof.
  intros Ha. assert (Hlt : (a < length h)%nat) by (eapply lookup_lt_Some; exact Ha).
  unfold is_And. destruct (decide (a = x)) as [<-|Hne].
  - rewrite list_lookup_insert_eq by exact Hlt. rewrite Ha.
    split; intros [l' Hl']; discriminate.
  - rewrite list_lookup_insert_ne by exact Hne. reflexivity.
Qed.

Lemma is_And_alloc h o x : (x < length h)%nat -> is_And (h ++ [o]) x <-> is_And h x.
Proof. intros Hlt. unfold is_And. rewrite lookup_app_l by exact Hlt. reflexivity. Qed.

Lemma is_Or_alloc h o x : (x < length h)%nat -> is_Or (h ++ [o]) x <-> is_Or h x.
Proof. intros Hlt. unfold is_Or. rewrite lookup_app_l by exact Hlt. reflexivity. Qed.

Lemma flat_intro h : no_And_in_And h -> no_Or_in_Or h -> flat h.
Proof. intros HA HO. split; assumption. Qed.

Lemma flat_intro' h : no_Or_in_Or h -> no_And_in_And h -> flat h.
Proof. intros HO HA. split; assumption. Qed.

Lemma no_And_in_And_update_And h a la l :
  no_And_in_And h -> h !! a = Some (And la) ->
  (forall x, x ∈ l -> ~ is_And h x) ->
  no_And_in_And (<[a := And (la ++ l)]> h).
Proof.
  intros Hflat Ha Hl r l' x Hr Hx. rewrite (is_And_update_And _ _ _ _ _ Ha).
  apply list_lookup_insert_Some in Hr as [(_ & Heq & _)|[_ Hr]].
  - injection Heq as <-. apply elem_of_app in Hx as [Hx|Hx].
    + exact (Hflat a la x Ha Hx).
    + exact (Hl x Hx).
  - exact (Hflat r l' x Hr Hx).
Qed.

Lemma no_Or_in_Or_update_And h a la l :
  no_Or_in_Or h -> h !! a = Some (And la) -> no_Or_in_Or (<[a := And l]> h).
Proof.
  intros Hflat Ha r l' x Hr Hx. rewrite (is_Or_update_And _ _ _ _ _ Ha).
  apply list_lookup_insert_Some in Hr as [(_ & Heq & _)|[_ Hr]]; [discriminate|].
  exact (Hflat r l' x Hr Hx).
Qed.

Lemma no_And_in_And_alloc_And h l :
  closed h -> no_And_in_And h ->
  (forall x, x ∈ l -> (x < length h)%nat /\ ~ is_And h x) ->
  no_And_in_And (h ++ [And l]).
Proof.
  intros Hc Hflat Hl r l' x Hr Hx.
  apply lookup_snoc_Some in Hr as [[_ Hr]|[_ Heq]].
  - rewrite is_And_alloc by exact (Hc r _ x Hr Hx). exact (Hflat r l' x Hr Hx).
  - injection Heq as <-. destruct (Hl x Hx) as [Hlt Hnot].
    rewrite is_And_alloc by exact Hlt. exact Hnot.
Qed.

Lemma no_Or_in_Or_alloc_And h l :
  closed h -> no_Or_in_Or h -> no_Or_in_Or (h ++ [And l]).
Proof.
  intros Hc Hflat r l' x Hr Hx.
  apply lookup_snoc_Some in Hr as [[_ Hr]|[_ Heq]]; [|discriminate].
  rewrite is_Or_alloc by exact (Hc r _ x Hr Hx). exact (Hflat r l' x Hr Hx).
Qed.

Lemma flat_and h (a b : nat) :
  closed h -> flat h -> (a < length h)%nat -> (b < length h)%nat ->
  closed (__and__ h a b).1 /\
  (is_And h a \/ ~ is_And h b -> flat (__and__ h a b).1) /\
  (~ is_And h a -> is_And h b -> ~ no_And_in_And (__and__ h a b).1).
Proof.
  intros Hc [HA HO] Hlta Hltb.
  destruct (is_And_dec h a) as [[la Ha]|Hnota].
  - assert (Hla : forall x, x ∈ la -> (x < length h)%nat) by (intros x; exact (Hc a _ x Ha)).
    destruct (is_And_dec h b) as [[lb Hb]|Hnotb].
    + rewrite (and_merge _ _ _ _ _ Ha Hb). cbn [fst snd]. split; [|split].
      * apply closed_update; [exact Hc|]. cbn [children]. intros x Hx.
        apply elem_of_app in Hx as [Hx|Hx]; [exact (Hla x Hx)|exact (Hc b _ x Hb Hx)].
      * intros _. apply flat_intro.
        -- apply (no_And_in_And_update_And _ _ _ _ HA Ha). intros x Hx. exact (HA b lb x Hb Hx).
        -- exact (no_Or_in_Or_update_And _ _ _ _ HO Ha).
      * intros Hnot. destruct Hnot. eexists; exact Ha.
    + rewrite (and_append _ _ _ _ Ha Hnotb). cbn [fst snd]. split; [|split].
      * apply closed_update; [exact Hc|]. cbn [children]. intros x Hx.
        apply elem_of_app in Hx as [Hx|Hx]; [exact (Hla x Hx)|].
        apply list_elem_of_singleton in Hx as ->. exact Hltb.
      * intros _. apply flat_intro.
        -- apply (no_And_in_And_update_And _ _ _ _ HA Ha). intros x Hx.
           apply list_elem_of_singleton in Hx as ->. exact Hnotb.
        -- exact (no_Or_in_Or_update_And _ _ _ _ HO Ha).
      * intros Hnot. destruct Hnot. eexists; exact Ha.
  - rewrite (and_new _ _ _ Hnota). cbn [fst snd]. split; [|split].
    + apply closed_alloc; [exact Hc|]. cbn [children]. intros x Hx.
      rewrite !elem_of_cons in Hx. destruct Hx as [->|[->|Hx]]; [exact Hlta|exact Hltb|].
      apply elem_of_nil in Hx. contradiction.
    + intros [HAa|Hnotb]; [destruct (Hnota HAa)|]. apply flat_intro.
      * apply (no_And_in_And_alloc_And _ _ Hc HA). intros x Hx.
        rewrite !elem_of_cons in Hx. destruct Hx as [->|[->|Hx]]; [auto|auto|].
        apply elem_of_nil in Hx. contradiction.
      * exact (no_Or_in_Or_alloc_And _ _ Hc HO).
    + intros _ Hb Hflat.
      apply (Hflat (length h) [a; b] b).
      * apply list_lookup_middle. reflexivity.
      * rewrite !elem_of_cons. auto.
      * rewrite is_And_alloc by exact Hltb. exact Hb.
Qed.
Lemma no_Or_in_Or_update_Or h a la l :
  no_Or_in_Or h -> h !! a = Some (Or la) ->
  (forall x, x ∈ l -> ~ is_Or h x) ->
  no_Or_in_Or (<[a := Or (la ++ l)]> h).
Proof.
  intros Hflat Ha Hl r l' x Hr Hx. rewrite (is_Or_update_Or _ _ _ _ _ Ha).
  apply list_lookup_insert_Some in Hr as [(_ & Heq & _)|[_ Hr]].
  - injection Heq as <-. apply elem_of_app in Hx as [Hx|Hx].
    + exact (Hflat a la x Ha Hx).
    + exact (Hl x Hx).
  - exact (Hflat r l' x Hr Hx).
Qed.

Lemma no_And_in_And_update_Or h a la l :
  no_And_in_And h -> h !! a = Some (Or la) -> no_And_in_And (<[a := Or l]> h).
Proof.
  intros Hflat Ha r l' x Hr Hx. rewrite (is_And_update_Or _ _ _ _ _ Ha).
  apply list_lookup_insert_Some in Hr as [(_ & Heq & _)|[_ Hr]]; [discriminate|].
  exact (Hflat r l' x Hr Hx).
Qed.

Lemma no_Or_in_Or_alloc_Or h l :
  closed h -> no_Or_in_Or h ->
  (forall x, x ∈ l -> (x < length h)%nat /\ ~ is_Or h x) ->
  no_Or_in_Or (h ++ [Or l]).
Proof.
  intros Hc Hflat Hl r l' x Hr Hx.
  apply lookup_snoc_Some in Hr as [[_ Hr]|[_ Heq]].
  - rewrite is_Or_alloc by exact (Hc r _ x Hr Hx). exact (Hflat r l' x Hr Hx).
  - injection Heq as <-. destruct (Hl x Hx) as [Hlt Hnot].
    rewrite is_Or_alloc by exact Hlt. exact Hnot.
Qed.

Lemma no_And_in_And_alloc_Or h l :
  closed h -> no_And_in_And h -> no_And_in_And (h ++ [Or l]).
Proof.
  intros Hc Hflat r l' x Hr Hx.
  apply lookup_snoc_Some in Hr as [[_ Hr]|[_ Heq]]; [|discriminate].
  rewrite is_And_alloc by exact (Hc r _ x Hr Hx). exact (Hflat r l' x Hr Hx).
Qed.

Lemma flat_or h (a b : nat) :
  closed h -> flat h -> (a < length h)%nat -> (b < length h)%nat ->
  closed (__or__ h a b).1 /\
  (is_Or h a \/ ~ is_Or h b -> flat (__or__ h a b).1) /\
  (~ is_Or h a -> is_Or h b -> ~ no_Or_in_Or (__or__ h a b).1).
Proof.
  intros Hc [HO HA] Hlta Hltb.
  destruct (is_Or_dec h a) as [[la Ha]|Hnota].
  - assert (Hla : forall x, x ∈ la -> (x < length h)%nat) by (intros x; exact (Hc a _ x Ha)).
    destruct (is_Or_dec h b) as [[lb Hb]|Hnotb].
    + rewrite (or_merge _ _ _ _ _ Ha Hb). cbn [fst snd]. split; [|split].
      * apply closed_update; [exact Hc|]. cbn [children]. intros x Hx.
        apply elem_of_app in Hx as [Hx|Hx]; [exact (Hla x Hx)|exact (Hc b _ x Hb Hx)].
      * intros _. apply flat_intro'.
        -- apply (no_Or_in_Or_update_Or _ _ _ _ HA Ha). intros x Hx. exact (HA b lb x Hb Hx).
        -- exact (no_And_in_And_update_Or _ _ _ _ HO Ha).
      * intros Hnot. destruct Hnot. eexists; exact Ha.
    + rewrite (or_append _ _ _ _ Ha Hnotb). cbn [fst snd]. split; [|split].
      * apply closed_update; [exact Hc|]. cbn [children]. intros x Hx.
        apply elem_of_app in Hx as [Hx|Hx]; [exact (Hla x Hx)|].
        apply list_elem_of_singleton in Hx as ->. exact Hltb.
      * intros _. apply flat_intro'.
        -- apply (no_Or_in_Or_update_Or _ _ _ _ HA Ha). intros x Hx.
           apply list_elem_of_singleton in Hx as ->. exact Hnotb.
        -- exact (no_And_in_And_update_Or _ _ _ _ HO Ha).
      * intros Hnot. destruct Hnot. eexists; exact Ha.
  - rewrite (or_new _ _ _ Hnota). cbn [fst snd]. split; [|split].
    + apply closed_alloc; [exact Hc|]. cbn [children]. intros x Hx.
      rewrite !elem_of_cons in Hx. destruct Hx as [->|[->|Hx]]; [exact Hlta|exact Hltb|].
      apply elem_of_nil in Hx. contradiction.
    + intros [HAa|Hnotb]; [destruct (Hnota HAa)|]. apply flat_intro'.
      * apply (no_Or_in_Or_alloc_Or _ _ Hc HA). intros x Hx.
        rewrite !elem_of_cons in Hx. destruct Hx as [->|[->|Hx]]; [auto|auto|].
        apply elem_of_nil in Hx. contradiction.
      * exact (no_And_in_And_alloc_Or _ _ Hc HO).
    + intros _ Hb Hflat.
      apply (Hflat (length h) [a; b] b).
      * apply list_lookup_middle. reflexivity.
      * rewrite !elem_of_cons. auto.
      * rewrite is_Or_alloc by exact Hltb. exact Hb.
Qed.
(** C6, as amended: in a store built through the AND/OR composition
    operators, no [And] node's child list contains an [And] node and no [Or]
    node's child list contains an [Or] node as long as every AND whose right
    operand is an [And] has an [And] as left operand too (and likewise for
    OR): an [And] left operand is extended in place, by the children of an
    [And] right operand or by the right operand itself, ordering preserved,
    left before right.  When the left operand is not an [And] and the right
    operand is one, a new [And] of the two is built and the right operand
    stays nested in it (likewise for [Or]). *)
Theorem flattening_invariant (h : heap) (a b : ref) :
  closed h -> flat h -> (a < length h)%nat -> (b < length h)%nat ->
  (closed (__and__ h a b).1 /\ closed (__or__ h a b).1) /\
  (is_And h a \/ ~ is_And h b -> flat (__and__ h a b).1) /\
  (is_Or h a \/ ~ is_Or h b -> flat (__or__ h a b).1) /\
  (forall la lb, h !! a = Some (And la) -> h !! b = Some (And lb) ->
     (__and__ h a b).1 !! (__and__ h a b).2 = Some (And (la ++ lb))) /\
  (forall la lb, h !! a = Some (Or la) -> h !! b = Some (Or lb) ->
     (__or__ h a b).1 !! (__or__ h a b).2 = Some (Or (la ++ lb))) /\
  (~ is_And h a -> is_And h b ->
     (__and__ h a b).1 !! (__and__ h a b).2 = Some (And [a; b]) /\
     ~ flat (__and__ h a b).1) /\
  (~ is_Or h a -> is_Or h b ->
     (__or__ h a b).1 !! (__or__ h a b).2 = Some (Or [a; b]) /\
     ~ flat (__or__ h a b).1).
Proof.
  intros Hc Hflat Hlta Hltb.
  destruct (flat_and h a b Hc Hflat Hlta Hltb) as (Hc1 & Hf1 & Hn1).
  destruct (flat_or h a b Hc Hflat Hlta Hltb) as (Hc2 & Hf2 & Hn2).
  split; [split; assumption|]. split; [exact Hf1|]. split; [exact Hf2|].
  split; [|split; [|split]].
  - intros la lb Ha Hb. rewrite (and_merge _ _ _ _ _ Ha Hb). cbn [fst snd].
    apply list_lookup_insert_eq. exact Hlta.
  - intros la lb Ha Hb. rewrite (or_merge _ _ _ _ _ Ha Hb). cbn [fst snd].
    apply list_lookup_insert_eq. exact Hlta.
  - intros Ha Hb. split.
    + rewrite (and_new _ _ _ Ha). cbn [fst snd]. apply list_lookup_middle. reflexivity.
    + intros [HA _]. exact (Hn1 Ha Hb HA).
  - intros Ha Hb. split.
    + rewrite (or_new _ _ _ Ha). cbn [fst snd]. apply list_lookup_middle. reflexivity.
    + intros [_ HO]. exact (Hn2 Ha Hb HO).
Qed.

End Flattening.

(** ** Decimal division

    The number of digits of a coefficient, the rounding of [_fix] and the
    integer division of [__truediv__], up to the fact that a quotient is
    never on the other side of an integer than the exact ratio. *)

(** *** The number of digits *)













Lemma round_half_even_range (c : N) digits :
  -1 <= _round_half_even c digits <= 1.
Proof.
  unfold _round_half_even, _round_half_up.
  repeat match goal with |- context [if ?b then _ else _] => destruct b end; lia.
Qed.

(** *** Rounding to the precision *)


(** *** The integer division *)







(** *** The quotient and the exact ratio *)

Local Abbreviation Qpow10 e := ((10 # 1) ^ e)%Q.













(** *** Overflow *)






(** ** Leaf predicates *)

Section Leaves.
Context {L : Library}.
Implicit Types (h : heap) (c : Candidate) (o : Specification).

(** A leaf is evaluated without looking at the store. *)
Lemma is_satisfied_by_leaf fuel h self c o :
  h !! self = Some o -> children o = [] -> (forall l, o <> And l) -> (forall l, o <> Or l) ->
  is_satisfied_by (S fuel) h self c = leaf_is_satisfied_by o c.
Proof.
  intros Ho Hch HA HO. rewrite is_satisfied_by_S, Ho.
  destruct o; try reflexivity; try discriminate.
  - destruct (HA specifications eq_refl).
  - destruct (HO specifications eq_refl).
Qed.

Lemma field_leaf o key :
  field o = Some key ->
  children o = [] /\ (forall l, o <> And l) /\ (forall l, o <> Or l).
Proof. destruct o; try discriminate; intros _; repeat split; intros l; discriminate. Qed.

(** C9: for every leaf predicate and every candidate, [is_satisfied_by]
    fails with the missing-field error ([KeyError] of the key) when the
    candidate lacks the field the predicate reads ([area], [cargo],
    [salario_bruto] or [data_de_admissao]), and fails with the
    malformed-value error when the field is present but its content cannot
    be parsed as the expected type: decimal for salary ([InvalidOperation]
    of [decimal]), calendar date for admission ([ParserError] of
    [pendulum]). *)
Theorem leaf_errors (fuel : nat) (h : heap) (self : ref) (c : Candidate)
  (o : Specification) (key : string) :
  h !! self = Some o -> field o = Some key ->
  (key = "area" \/ key = "cargo" \/ key = "salario_bruto" \/ key = "data_de_admissao") /\
  (c !! key = None -> is_satisfied_by (S fuel) h self c = Raise (KeyError key)) /\
  (forall s, c !! key = Some (VStr s) -> key = "salario_bruto" ->
     Decimal_of_str s = None ->
     is_satisfied_by (S fuel) h self c = Raise InvalidOperation) /\
  (forall s, c !! key = Some (VStr s) -> key = "data_de_admissao" ->
     parse s = None ->
     is_satisfied_by (S fuel) h self c = Raise ParserError).
Proof.
  intros Ho Hkey. destruct (field_leaf _ _ Hkey) as (Hch & HA & HO).
  rewrite (is_satisfied_by_leaf _ _ _ _ _ Ho Hch HA HO).
  destruct o; try discriminate; injection Hkey as <-.
  all: split; [auto 6|].
  all: split; [intros Hc; cbn; unfold lower_equals, salaries, admission, __getitem__;
                rewrite Hc; reflexivity|].
  all: split; intros s Hc Hk Hp; try discriminate.
  all: cbn; unfold salaries, admission, __getitem__; rewrite Hc; cbn; rewrite Hp;
    reflexivity.
Qed.


(** C4: for every tenure predicate and every candidate with a parseable
    admission date, [AdmissionTimeInYearsBetween] built with bounds [initial]
    and [final] is satisfied iff [initial*365 < d < final*365], with strict
    inequalities on both ends, where [d] is the whole-day difference between
    the admission date and the frozen reference time;
    [AdmissionTimeInYearsLessThan] is satisfied iff the whole-year difference
    is strictly less than its threshold, and
    [AdmissionTimeInYearsGreaterThan] iff the whole-year difference is
    greater than or equal to its threshold. *)
Theorem tenure_is_satisfied_by (fuel : nat) (h : heap) (self : ref) (c : Candidate)
  (s : string) (a frozen now : DateTime) (current_time : option string)
  (initial final threshold : Z) :
  c !! "data_de_admissao" = Some (VStr s) ->
  parse s = Some a ->
  frozen_time current_time now = Ok frozen ->
  (forall o,
     AdmissionTimeInYearsBetween__init__ initial final current_time now = Ok o ->
     h !! self = Some o ->
     exists b, is_satisfied_by (S fuel) h self c = Ok b /\
       (b = true <-> initial * 365 < in_days a frozen < final * 365)) /\
  (forall o,
     AdmissionTimeInYearsLessThan__init__ threshold current_time now = Ok o ->
     h !! self = Some o ->
     exists b, is_satisfied_by (S fuel) h self c = Ok b /\
       (b = true <-> in_years a frozen < threshold)) /\
  (forall o,
     AdmissionTimeInYearsGreaterThan__init__ threshold current_time now = Ok o ->
     h !! self = Some o ->
     exists b, is_satisfied_by (S fuel) h self c = Ok b /\
       (b = true <-> threshold <= in_years a frozen)).
Proof.
  intros Hc Hp Hf.
  assert (Ha : admission c = Ok a).
  { unfold admission, __getitem__. rewrite Hc. cbn. rewrite Hp. reflexivity. }
  unfold AdmissionTimeInYearsBetween__init__, AdmissionTimeInYearsLessThan__init__,
    AdmissionTimeInYearsGreaterThan__init__. rewrite Hf. cbn [mbind result_bind].
  repeat split; intros o Ho Hself; injection Ho as <-;
    rewrite is_satisfied_by_S, Hself; cbn [leaf_is_satisfied_by];
    rewrite Ha; cbn [mbind result_bind]; eexists; (split; [reflexivity|]).
  - unfold BASE_DAYS_ON_YEAR. rewrite andb_true_iff, !Z.ltb_lt. reflexivity.
  - apply Z.ltb_lt.
  - apply Z.leb_le.
Qed.




End Leaves.

(** ** Exceptions in composites *)

Section Propagation.
Context {L : Library}.
Implicit Types (h : heap) (c : Candidate).

Lemma comprehension_raises {A B} (f : A -> result B) pre x post e :
  (forall y, y ∈ pre -> exists b, f y = Ok b) ->
  f x = Raise e ->
  comprehension f (pre ++ x :: post) = Raise e.
Proof.
  intros Hpre Hx. rewrite comprehension_app.
  destruct (comprehension_total f pre Hpre) as [ys ->].
  cbn. rewrite Hx. reflexivity.
Qed.

(** X1: [And.is_satisfied_by] and [Or.is_satisfied_by] do not
    short-circuit: the list of the children's results is built in full
    before [all] or [any] looks at it, so when the children before some
    child return booleans and that child raises an exception, the composite
    raises that exception, whatever the earlier results were (a [False]
    before it in an [And], a [True] before it in an [Or]) and whatever the
    later children would do. *)
Theorem composite_raises_first_exception fuel h self c pre x post e :
  h !! self = Some (And (pre ++ x :: post)) \/
  h !! self = Some (Or (pre ++ x :: post)) ->
  (forall y, y ∈ pre -> exists b, is_satisfied_by fuel h y c = Ok b) ->
  is_satisfied_by fuel h x c = Raise e ->
  is_satisfied_by (S fuel) h self c = Raise e.
Proof.
  intros [Ho|Ho] Hpre Hx; rewrite is_satisfied_by_S, Ho;
    rewrite (comprehension_raises _ pre x post e Hpre Hx); reflexivity.
Qed.

Lemma all_true_iff (bs : list bool) : all bs = true <-> forall b, b ∈ bs -> b = true.
Proof.
  unfold all. rewrite forallb_forall. split; intros H b Hb.
  - apply (H b). apply list_elem_of_In. exact Hb.
  - apply (H b). apply list_elem_of_In. exact Hb.
Qed.

Lemma any_true_iff (bs : list bool) : any bs = true <-> true ∈ bs.
Proof.
  unfold any. rewrite existsb_exists. split.
  - intros (b & Hb & Hid). unfold id in Hid. subst b. apply list_elem_of_In. exact Hb.
  - intros H. exists true. split; [apply list_elem_of_In; exact H|reflexivity].
Qed.

Lemma Forall2_Ok_all {A} (f : A -> result bool) l bs :
  Forall2 (fun x y => f x = Ok y) l bs ->
  ((forall b, b ∈ bs -> b = true) <-> (forall x, x ∈ l -> f x = Ok true)) /\
  (true ∈ bs <-> exists x, x ∈ l /\ f x = Ok true).
Proof.
  induction 1 as [|x y l bs Hx _ [IHall IHany]].
  - split; split.
    + intros _ x Hx. apply elem_of_nil in Hx. contradiction.
    + intros _ b Hb. apply elem_of_nil in Hb. contradiction.
    + intros Hb. apply elem_of_nil in Hb. contradiction.
    + intros (x & Hx & _). apply elem_of_nil in Hx. contradiction.
  - split; split.
    + intros Hbs x' Hx'. apply elem_of_cons in Hx' as [->|Hx'].
      * rewrite Hx. f_equal. apply Hbs. left.
      * apply IHall; [|exact Hx']. intros b Hb. apply Hbs. right. exact Hb.
    + intros Hl b Hb. apply elem_of_cons in Hb as [->|Hb].
      * specialize (Hl x ltac:(left)). congruence.
      * revert b Hb. apply IHall. intros x' Hx'. apply Hl. right. exact Hx'.
    + intros Hb. apply elem_of_cons in Hb as [<-|Hb].
      * exists x. split; [left|exact Hx].
      * destruct (proj1 IHany Hb) as (x' & Hx' & Ht).
        exists x'. split; [right; exact Hx'|exact Ht].
    + intros (x' & Hx' & Ht). apply elem_of_cons in Hx' as [->|Hx'].
      * assert (y = true) by congruence. subst y. left.
      * right. apply IHany. eauto.
Qed.

(** X2: when every child of an [And] or [Or] node returns a boolean, the
    node returns a boolean: an [And] returns [True] exactly when every child
    returns [True], an [Or] exactly when some child returns [True], for any
    number of children. *)
Theorem composite_all_any fuel h self c specifications :
  (forall s, s ∈ specifications -> exists b, is_satisfied_by fuel h s c = Ok b) ->
  (h !! self = Some (And specifications) ->
     exists b, is_satisfied_by (S fuel) h self c = Ok b /\
       (b = true <->
        forall s, s ∈ specifications -> is_satisfied_by fuel h s c = Ok true)) /\
  (h !! self = Some (Or specifications) ->
     exists b, is_satisfied_by (S fuel) h self c = Ok b /\
       (b = true <->
        exists s, s ∈ specifications /\ is_satisfied_by fuel h s c = Ok true)).
Proof.
  intros Hch.
  destruct (comprehension_total (fun s => is_satisfied_by fuel h s c) specifications Hch)
    as [bs Hbs].
  pose proof (Forall2_Ok_all _ _ _ (comprehension_Ok_inv _ _ _ Hbs)) as [Hall Hany].
  split; intros Ho; rewrite is_satisfied_by_S, Ho, Hbs; cbn [mbind result_bind];
    eexists; (split; [reflexivity|]).
  - rewrite all_true_iff. exact Hall.
  - rewrite any_true_iff. exact Hany.
Qed.

End Propagation.

(** ** What evaluation visits and what the operators leave alone *)

Section Framing.
Context {L : Library}.
Implicit Types (h : heap) (c : Candidate).

(** X3: a specification returns a boolean only if every specification at
    or below it (a child of an [And] or [Or], the operand of an [Invert],
    either operand of a [Xor], at any depth) returns a boolean for the same
    candidate: nothing is skipped, so an exception anywhere in the tree
    (a missing key, an unparseable value) makes the whole evaluation fail;
    and no specification that evaluates contains itself. *)
Theorem is_satisfied_by_evaluates_everything fuel h x y c b :
  is_satisfied_by fuel h x c = Ok b -> reaches h x y ->
  (exists b', is_satisfied_by fuel h y c = Ok b') /\ ~ inside h y y.
Proof.
  intros H Hr. revert fuel b H.
  induction Hr as [x|x o y z Ho Hy _ IH]; intros fuel b H.
  - split; [eauto|]. exact (is_satisfied_by_acyclic _ _ _ _ _ H).
  - destruct fuel as [|fuel]; [discriminate|].
    destruct (is_satisfied_by_Ok_children _ _ _ _ _ _ _ H Ho Hy) as [b1 H1].
    destruct (IH _ _ H1) as [[b' Hb'] Hcyc]. split; [|exact Hcyc].
    exists b'. apply is_satisfied_by_S_Ok. exact Hb'.
Qed.

Lemma and_store h a b :
  exists o, (__and__ h a b).1 = <[a := o]> h \/ (__and__ h a b).1 = h ++ [o].
Proof.
  unfold __and__, alloc. destruct (h !! a) as [[]|]; cbn [fst]; eauto.
  destruct (h !! b) as [[]|]; cbn [fst]; eauto.
Qed.

Lemma or_store h a b :
  exists o, (__or__ h a b).1 = <[a := o]> h \/ (__or__ h a b).1 = h ++ [o].
Proof.
  unfold __or__, alloc. destruct (h !! a) as [[]|]; cbn [fst]; eauto.
  destruct (h !! b) as [[]|]; cbn [fst]; eauto.
Qed.

(** X4: the operators leave the results of other specifications alone.
    [a ^ b] and [~a] only build a new object: every specification that
    returned a boolean before returns the same boolean after.  [a & b] and
    [a | b] keep the result of every specification that does not contain
    [a] (is not [a] and does not have [a] below it), and of every
    specification at all when [a] is not an [And] (for [&]) or not an [Or]
    (for [|]), in which case they too only build a new object. *)
Theorem operators_frame fuel h a b x c v :
  is_satisfied_by fuel h x c = Ok v ->
  is_satisfied_by fuel (__xor__ h a b).1 x c = Ok v /\
  is_satisfied_by fuel (__invert__ h a).1 x c = Ok v /\
  (~ reaches h x a ->
     is_satisfied_by fuel (__and__ h a b).1 x c = Ok v /\
     is_satisfied_by fuel (__or__ h a b).1 x c = Ok v) /\
  (~ is_And h a -> is_satisfied_by fuel (__and__ h a b).1 x c = Ok v) /\
  (~ is_Or h a -> is_satisfied_by fuel (__or__ h a b).1 x c = Ok v).
Proof.
  intros H. split; [exact (is_satisfied_by_alloc _ _ _ _ _ _ H)|].
  split; [exact (is_satisfied_by_alloc _ _ _ _ _ _ H)|].
  split; [|split].
  - intros Hr.
    assert (Hne : forall y, reaches h x y -> y <> a) by (intros y Hy ->; exact (Hr Hy)).
    split.
    + destruct (and_store h a b) as [o [-> | ->]].
      * rewrite is_satisfied_by_update by exact Hne. exact H.
      * exact (is_satisfied_by_alloc _ _ _ _ _ _ H).
    + destruct (or_store h a b) as [o [-> | ->]].
      * rewrite is_satisfied_by_update by exact Hne. exact H.
      * exact (is_satisfied_by_alloc _ _ _ _ _ _ H).
  - intros Ha. rewrite (and_new _ _ _ Ha). exact (is_satisfied_by_alloc _ _ _ _ _ _ H).
  - intros Ha. rewrite (or_new _ _ _ Ha). exact (is_satisfied_by_alloc _ _ _ _ _ _ H).
Qed.

End Framing.

(** ** How the leaf predicates relate *)

Section LeafAlgebra.
Context {L : Library}.
Implicit Types (h : heap) (c : Candidate) (o : Specification).

Lemma lower_equals_true c key name name' :
  lower_equals c key name = Ok true -> lower_equals c key name' = Ok true ->
  name = name'.
Proof.
  unfold lower_equals. destruct (__getitem__ c key) as [v|]; [|discriminate].
  cbn. destruct (str_lower v) as [s|]; [|discriminate]. cbn.
  intros H1 H2. injection H1 as H1. injection H2 as H2.
  apply String.eqb_eq in H1, H2. congruence.
Qed.

(** X5: the six predicates on the candidate's [area] ([DirectorBoard] and
    the five departments) are mutually exclusive: a candidate satisfies at
    most one of them. *)
Theorem area_predicates_exclusive fuel h c r1 r2 o1 o2 :
  h !! r1 = Some o1 -> h !! r2 = Some o2 ->
  field o1 = Some "area" -> field o2 = Some "area" ->
  is_satisfied_by (S fuel) h r1 c = Ok true ->
  is_satisfied_by (S fuel) h r2 c = Ok true ->
  o1 = o2.
Proof.
  intros H1 H2 F1 F2. rewrite !is_satisfied_by_S, H1, H2.
  destruct o1; try discriminate F1; destruct o2; try discriminate F2;
    try reflexivity; cbn [leaf_is_satisfied_by]; intros E1 E2;
    discriminate (lower_equals_true _ _ _ _ E1 E2).
Qed.

Lemma between_leaf c first second BASE :
  leaf_is_satisfied_by (SalaryBetween first second BASE) c =
  x ← leaf_is_satisfied_by (SalaryLessThan first BASE) c;
  y ← leaf_is_satisfied_by (SalaryGreaterThan second BASE) c;
  Ok (all [negb x; negb y]).
Proof.
  cbn [leaf_is_satisfied_by]. destruct (salaries BASE c) as [[s n e|s|s]|err]; cbn;
    try reflexivity.
  - destruct (Qle_bool (inject_Z first) (to_Q s n e)); cbn; [|reflexivity].
    destruct (Qle_bool (to_Q s n e) (inject_Z second)); reflexivity.
  - destruct s; reflexivity.
Qed.

Lemma lookup_alloc_old h o r x :
  h !! r = Some x -> (alloc h o).1 !! r = Some x.
Proof. intros H. unfold alloc. cbn [fst]. apply lookup_app_l_Some. exact H. Qed.

Lemma lookup_alloc_new h o : (alloc h o).1 !! (alloc h o).2 = Some o.
Proof. unfold alloc. cbn [fst snd]. apply list_lookup_middle. reflexivity. Qed.

(** X6: with one base salary, [SalaryBetween(first, second)] gives the same
    result as the composite [~SalaryLessThan(first) & ~SalaryGreaterThan(second)]
    built with the operators, for every candidate: the same boolean, or the
    same exception. *)
Theorem salary_between_as_conjunction fuel h c first second BASE rb rl rg :
  h !! rb = Some (SalaryBetween first second BASE) ->
  h !! rl = Some (SalaryLessThan first BASE) ->
  h !! rg = Some (SalaryGreaterThan second BASE) ->
  let not_less := __invert__ h rl in
  let not_greater := __invert__ not_less.1 rg in
  let both := __and__ not_greater.1 not_less.2 not_greater.2 in
  is_satisfied_by (S (S (S fuel))) both.1 both.2 c = is_satisfied_by (S fuel) h rb c.
Proof.
  intros Hb Hl Hg not_less not_greater both.
  unfold __invert__ in not_less, not_greater.
  assert (Hnl : not_greater.1 !! not_less.2 = Some (Invert rl)).
  { apply lookup_alloc_old. apply lookup_alloc_new. }
  assert (Hng : not_greater.1 !! not_greater.2 = Some (Invert rg)).
  { apply lookup_alloc_new. }
  assert (Hboth : both = alloc not_greater.1 (And [not_less.2; not_greater.2])).
  { unfold both, __and__. rewrite Hnl. reflexivity. }
  assert (Hl' : not_greater.1 !! rl = Some (SalaryLessThan first BASE)).
  { do 2 apply lookup_alloc_old. exact Hl. }
  assert (Hg' : not_greater.1 !! rg = Some (SalaryGreaterThan second BASE)).
  { do 2 apply lookup_alloc_old. exact Hg. }
  rewrite Hboth. clearbody not_greater not_less. clear Hboth both.
  rewrite (is_satisfied_by_S (S (S fuel))), lookup_alloc_new.
  cbn [comprehension].
  rewrite (is_satisfied_by_S (S fuel) _ not_less.2).
  rewrite (lookup_alloc_old _ _ _ _ Hnl).
  rewrite (is_satisfied_by_S (S fuel) _ not_greater.2).
  rewrite (lookup_alloc_old _ _ _ _ Hng).
  rewrite (is_satisfied_by_S fuel _ rl).
  rewrite (lookup_alloc_old _ _ _ _ Hl').
  rewrite (is_satisfied_by_S fuel _ rg).
  rewrite (lookup_alloc_old _ _ _ _ Hg').
  rewrite (is_satisfied_by_S fuel h rb), Hb, between_leaf.
  destruct (leaf_is_satisfied_by (SalaryLessThan first BASE) c) as [x|e]; [|reflexivity].
  destruct (leaf_is_satisfied_by (SalaryGreaterThan second BASE) c) as [y|e]; reflexivity.
Qed.

Lemma Qle_bool_false (x y : Q) : Qle_bool x y = false -> (y < x)%Q.
Proof.
  intros H. apply Qnot_le_lt. intros Hle. apply Qle_bool_iff in Hle. congruence.
Qed.

(** X7: the salary thresholds are monotone and the two strict predicates
    exclude each other.  For thresholds [t' <= t] and one base salary: a
    candidate who satisfies [SalaryGreaterThan(t)] satisfies
    [SalaryGreaterThan(t')] and satisfies neither [SalaryLessThan(t)] nor
    [SalaryLessThan(t')]; a candidate who satisfies [SalaryLessThan(t')]
    satisfies [SalaryLessThan(t)] and neither [SalaryGreaterThan]. *)
Theorem salary_thresholds fuel h c t t' BASE rg rg' rl rl' :
  t' <= t ->
  h !! rg = Some (SalaryGreaterThan t BASE) ->
  h !! rg' = Some (SalaryGreaterThan t' BASE) ->
  h !! rl = Some (SalaryLessThan t BASE) ->
  h !! rl' = Some (SalaryLessThan t' BASE) ->
  (is_satisfied_by (S fuel) h rg c = Ok true ->
     is_satisfied_by (S fuel) h rg' c = Ok true /\
     is_satisfied_by (S fuel) h rl c = Ok false /\
     is_satisfied_by (S fuel) h rl' c = Ok false) /\
  (is_satisfied_by (S fuel) h rl' c = Ok true ->
     is_satisfied_by (S fuel) h rl c = Ok true /\
     is_satisfied_by (S fuel) h rg' c = Ok false /\
     is_satisfied_by (S fuel) h rg c = Ok false).
Proof.
  intros Hle Hg Hg' Hl Hl'. rewrite !is_satisfied_by_S, Hg, Hg', Hl, Hl'.
  cbn [leaf_is_satisfied_by].
  assert (HleQ : (inject_Z t' <= inject_Z t)%Q) by (rewrite <- Zle_Qle; exact Hle).
  destruct (salaries BASE c) as [[s n e|s|s]|err]; cbn; try (split; discriminate).
  - split; intros H; injection H as H; apply negb_true_iff, Qle_bool_false in H.
    + assert (H1 : Qle_bool (to_Q s n e) (inject_Z t') = false).
      { destruct (Qle_bool (to_Q s n e) (inject_Z t')) eqn:E; [|reflexivity].
        apply Qle_bool_iff in E. exfalso.
        apply (Qlt_irrefl (to_Q s n e)).
        eapply Qle_lt_trans; [exact E|]. eapply Qle_lt_trans; [exact HleQ|exact H]. }
      assert (H2 : Qle_bool (inject_Z t) (to_Q s n e) = true).
      { apply Qle_bool_iff, Qlt_le_weak. exact H. }
      assert (H3 : Qle_bool (inject_Z t') (to_Q s n e) = true).
      { apply Qle_bool_iff. eapply Qle_trans; [exact HleQ|]. apply Qlt_le_weak. exact H. }
      rewrite H1, H2, H3. repeat split.
    + assert (H1 : Qle_bool (inject_Z t) (to_Q s n e) = false).
      { destruct (Qle_bool (inject_Z t) (to_Q s n e)) eqn:E; [|reflexivity].
        apply Qle_bool_iff in E. exfalso.
        apply (Qlt_irrefl (to_Q s n e)).
        eapply Qlt_le_trans; [exact H|]. eapply Qle_trans; [exact HleQ|exact E]. }
      assert (H2 : Qle_bool (to_Q s n e) (inject_Z t') = true).
      { apply Qle_bool_iff, Qlt_le_weak. exact H. }
      assert (H3 : Qle_bool (to_Q s n e) (inject_Z t) = true).
      { apply Qle_bool_iff. eapply Qle_trans; [|exact HleQ]. apply Qlt_le_weak. exact H. }
      rewrite H1, H2, H3. repeat split.
  - destruct s; cbn; split; try discriminate; intros _; repeat split.
Qed.

(** X8: with one threshold and one frozen reference time,
    [AdmissionTimeInYearsGreaterThan] gives the same result as
    [~AdmissionTimeInYearsLessThan] for every candidate: the negated boolean,
    or the same exception. *)
Theorem tenure_greater_is_not_less fuel h c threshold frozen rl rg :
  h !! rl = Some (AdmissionTimeInYearsLessThan threshold frozen) ->
  h !! rg = Some (AdmissionTimeInYearsGreaterThan threshold frozen) ->
  is_satisfied_by (S (S fuel)) (__invert__ h rl).1 (__invert__ h rl).2 c
  = is_satisfied_by (S fuel) h rg c.
Proof.
  intros Hl Hg. unfold __invert__, alloc. cbn [fst snd].
  rewrite (is_satisfied_by_S (S fuel)), list_lookup_middle by reflexivity.
  rewrite !is_satisfied_by_S, (lookup_app_l_Some _ _ _ _ Hl), Hg.
  cbn [leaf_is_satisfied_by]. destruct (admission c) as [a|e]; [|reflexivity].
  cbn. rewrite Z.leb_antisym. reflexivity.
Qed.

(** X9: a range predicate whose bounds leave no room is satisfied by no
    candidate: [AdmissionTimeInYearsBetween(initial, final)] with
    [final <= initial] (both bounds are strict) and
    [SalaryBetween(first, second)] with [second < first] never return
    [True]. *)
Theorem empty_ranges fuel h self c o :
  h !! self = Some o ->
  (forall initial final current_time now,
     AdmissionTimeInYearsBetween__init__ initial final current_time now = Ok o ->
     final <= initial -> is_satisfied_by (S fuel) h self c <> Ok true) /\
  (forall first second base,
     SalaryBetween__init__ first second base = Ok o ->
     second < first -> is_satisfied_by (S fuel) h self c <> Ok true).
Proof.
  intros Ho. rewrite is_satisfied_by_S, Ho. split.
  - intros initial final current_time now Hinit Hle.
    unfold AdmissionTimeInYearsBetween__init__ in Hinit.
    destruct (frozen_time current_time now) as [t|e]; [|discriminate].
    injection Hinit as <-. cbn [leaf_is_satisfied_by].
    destruct (admission c) as [a|e]; [|discriminate]. cbn.
    intros H. injection H as H. apply andb_true_iff in H as [H1 H2].
    apply Z.ltb_lt in H1, H2. unfold BASE_DAYS_ON_YEAR in *. lia.
  - intros first second base Hinit Hlt.
    unfold SalaryBetween__init__ in Hinit.
    destruct (BaseSalaryCalculatorMixin__init__ base) as [BASE|e]; [|discriminate].
    injection Hinit as <-. cbn [leaf_is_satisfied_by].
    destruct (salaries BASE c) as [[s n e|s|s]|err]; cbn; try discriminate.
    + destruct (Qle_bool (inject_Z first) (to_Q s n e)) eqn:E1; [|discriminate].
      intros H. injection H as E2. apply Qle_bool_iff in E1, E2.
      assert (Hq : (inject_Z first <= inject_Z second)%Q) by (eapply Qle_trans; eassumption).
      rewrite <- Zle_Qle in Hq. lia.
    + destruct s; discriminate.
Qed.

End LeafAlgebra.

(** ** The base salary and division by zero *)

Lemma _fix_DivisionByZero d : _fix d <> Raise DivisionByZero.
Proof.
  destruct d as [s n e| |]; cbn [_fix]; try discriminate.
  repeat match goal with
  | |- context [if ?b then _ else _] => destruct b
  | |- context [let '(_, _) := ?p in _] => destruct p
  end; discriminate.
Qed.

Lemma truediv_DivisionByZero x y :
  __truediv__ x y = Raise DivisionByZero -> __bool__ y = false.
Proof.
  destruct x as [s1 c1 e1|s1|[|]], y as [s2 c2 e2|s2|[|]]; cbn [__truediv__];
    try discriminate.
  cbn [__bool__]. destruct (c2 =? 0)%N; [reflexivity|]. cbn [negb].
  destruct (c1 =? 0)%N; intros H.
  - destruct (_fix_DivisionByZero _ H).
  - repeat match type of H with
    | context [let '(_, _) := ?p in _] => destruct p
    end.
    destruct (_fix_DivisionByZero _ H).
Qed.

Section BaseSalary.
Context {L : Library}.
Implicit Types (h : heap) (c : Candidate) (o : Specification).

Lemma init_nonzero base BASE :
  (forall s, base <> Some (VStr s)) ->
  BaseSalaryCalculatorMixin__init__ base = Ok BASE -> __bool__ BASE = true.
Proof.
  intros Hstr. destruct base as [[s|n|d]|]; cbn.
  - destruct (Hstr s eq_refl).
  - destruct (n =? 0) eqn:E; cbn; intros H; injection H as <-; [reflexivity|].
    cbn. apply Z.eqb_neq in E. apply negb_true_iff, N.eqb_neq. lia.
  - destruct (__bool__ d) eqn:E; intros H; injection H as <-; [exact E|reflexivity].
  - intros H; injection H as <-. reflexivity.
Qed.

Lemma salaries_DivisionByZero BASE c :
  salaries BASE c = Raise DivisionByZero -> __bool__ BASE = false.
Proof.
  unfold salaries, __getitem__, calculate.
  destruct (c !! "salario_bruto") as [v|]; [|discriminate]. cbn [mbind result_bind].
  destruct (sanitize v) as [d|e] eqn:E; cbn [mbind result_bind];
    [apply truediv_DivisionByZero|].
  intros H. injection H as ->. destruct v as [s|n|d]; try discriminate E.
  cbn in E. destruct (Decimal_of_str s); discriminate E.
Qed.

(** X10: a salary predicate constructed with no [base], or with a [base]
    that is a [Decimal] or an [int], has a nonzero base salary (a zero
    [base] is falsy, so [__init__] keeps the default 1045.0), and its
    [is_satisfied_by] never raises [DivisionByZero], whatever the
    candidate. *)
Theorem salary_never_divides_by_zero fuel h self c o base threshold first second :
  (forall s, base <> Some (VStr s)) ->
  SalaryGreaterThan__init__ threshold base = Ok o \/
  SalaryLessThan__init__ threshold base = Ok o \/
  SalaryBetween__init__ first second base = Ok o ->
  h !! self = Some o ->
  (exists BASE, salary_base o = Some BASE /\ __bool__ BASE = true) /\
  is_satisfied_by (S fuel) h self c <> Raise DivisionByZero.
Proof.
  intros Hstr Hinit Ho. rewrite is_satisfied_by_S, Ho.
  unfold SalaryGreaterThan__init__, SalaryLessThan__init__, SalaryBetween__init__ in Hinit.
  destruct (BaseSalaryCalculatorMixin__init__ base) as [BASE|e] eqn:Hbase;
    [|destruct Hinit as [H|[H|H]]; discriminate].
  pose proof (init_nonzero base BASE Hstr Hbase) as Hnz.
  assert (Hs : salaries BASE c <> Raise DivisionByZero).
  { intros H. apply salaries_DivisionByZero in H. congruence. }
  destruct Hinit as [H|[H|H]]; injection H as <-; (split; [exists BASE; auto|]);
    cbn [leaf_is_satisfied_by];
    destruct (salaries BASE c) as [[s n e|s|s]|err]; cbn; try discriminate;
    try congruence.
  - destruct (Qle_bool _ _); discriminate.
  - destruct s; discriminate.
Qed.

(** X11: a zero [base] passed as a string is not replaced by the default:
    a non-empty string is truthy, so [__init__] stores [Decimal(base)], and
    when that is zero [is_satisfied_by] raises [DivisionByZero] for every
    candidate with a finite nonzero [Decimal] salary ([InvalidOperation]
    for a zero salary). *)
Theorem zero_string_base fuel h self c o s sign exp threshold first second d :
  s <> "" -> Decimal_of_str s = Some (Finite sign 0 exp) ->
  SalaryGreaterThan__init__ threshold (Some (VStr s)) = Ok o \/
  SalaryLessThan__init__ threshold (Some (VStr s)) = Ok o \/
  SalaryBetween__init__ first second (Some (VStr s)) = Ok o ->
  h !! self = Some o ->
  c !! "salario_bruto" = Some (VDecimal d) ->
  salary_base o = Some (Finite sign 0 exp) /\
  (forall sg n e, d = Finite sg n e -> n <> 0%N ->
     is_satisfied_by (S fuel) h self c = Raise DivisionByZero) /\
  (forall sg e, d = Finite sg 0 e ->
     is_satisfied_by (S fuel) h self c = Raise InvalidOperation).
Proof.
  intros Hs Hd Hinit Ho Hc. rewrite is_satisfied_by_S, Ho.
  unfold SalaryGreaterThan__init__, SalaryLessThan__init__, SalaryBetween__init__,
    BaseSalaryCalculatorMixin__init__, truthy in Hinit.
  apply String.eqb_neq in Hs. rewrite Hs in Hinit. cbn in Hinit. rewrite Hd in Hinit.
  cbn in Hinit.
  assert (Hsal : forall BASE, salaries BASE c = __truediv__ d BASE).
  { intros BASE. unfold salaries, __getitem__. rewrite Hc. reflexivity. }
  destruct Hinit as [H|[H|H]]; injection H as <-; (split; [reflexivity|]);
    cbn [leaf_is_satisfied_by]; rewrite Hsal; split.
  all: try (intros sg n e -> Hn; cbn; apply N.eqb_neq in Hn; rewrite Hn; reflexivity).
  all: intros sg e ->; reflexivity.
Qed.

End BaseSalary.

(** ** The remainder of a remainder *)

Section RemainderAgain.
Context {L : Library}.
Implicit Types (h : heap) (c : Candidate) (o : Specification).

Lemma filter_all {A} (p : A -> bool) (l : list A) :
  (forall x, x ∈ l -> p x = true) -> List.filter p l = l.
Proof.
  induction l as [|x l IH]; intros H; simpl; [reflexivity|].
  rewrite (H x) by left. f_equal. apply IH. intros y Hy. apply H. right. exact Hy.
Qed.

Lemma unsatisfied_elem fuel h c specifications x :
  x ∈ unsatisfied fuel h c specifications ->
  x ∈ specifications /\ is_satisfied_by fuel h x c = Ok false.
Proof.
  intros Hx. split.
  - unfold unsatisfied in Hx. rewrite list_elem_of_In, filter_In in Hx.
    apply list_elem_of_In. exact (proj1 Hx).
  - exact (filter_fails _ _ _ Hx).
Qed.

(** X12: [remainder_unsatisfied_by] modifies no existing object: when it
    returns a specification, the store is unchanged or has one new [And]
    appended, which is the one returned, and every specification that
    returned a boolean still returns it.  And when no [And] is a child of an
    [And], the remainder is its own remainder: asking the returned
    specification for its remainder gives it back, the store unchanged. *)
Theorem remainder_unsatisfied_by_fixed_point fuel h self c h' r :
  remainder_unsatisfied_by fuel h self c = Ok (h', Some r) ->
  (h' = h \/ exists specifications, h' = h ++ [And specifications] /\ r = length h) /\
  (forall x v, is_satisfied_by fuel h x c = Ok v -> is_satisfied_by fuel h' x c = Ok v) /\
  (no_And_in_And h -> remainder_unsatisfied_by fuel h' r c = Ok (h', Some r)).
Proof.
  intros H. destruct (is_And_dec h self) as [[specifications Ho]|Hnot].
  2: { pose proof H as H0. rewrite (remainder_unsatisfied_by_default _ _ _ _ Hnot) in H0.
       destruct (is_satisfied_by fuel h self c) as [[|]|]; try discriminate H0.
       injection H0 as <- <-. split; [left; reflexivity|]. split; [auto|].
       intros _. exact H. }
  destruct fuel as [|fuel].
  { unfold remainder_unsatisfied_by in H. rewrite Ho in H. discriminate. }
  assert (Hbs : exists bs,
    comprehension (fun s => is_satisfied_by fuel h s c) specifications = Ok bs).
  { unfold remainder_unsatisfied_by in H. rewrite Ho in H.
    apply bind_Ok_inv in H as (xs & H & _).
    exact (comprehension_if_not_inv _ _ _ H). }
  destruct Hbs as [bs Hbs].
  destruct (remainder_unsatisfied_by_And _ _ _ _ _ _ Ho Hbs) as [_ Hrem].
  pose proof H as H0. rewrite Hrem in H0.
  destruct (unsatisfied fuel h c specifications) as [|x [|y l]] eqn:E; [discriminate| |].
  - injection H0 as <- <-. split; [left; reflexivity|]. split; [auto|]. intros Hflat.
    destruct (unsatisfied_elem fuel h c specifications x) as [Hx Hf]; [rewrite E; left|].
    rewrite (remainder_unsatisfied_by_default _ _ _ _ (Hflat _ _ _ Ho Hx)).
    rewrite (is_satisfied_by_S_Ok _ _ _ _ _ Hf). reflexivity.
  - destruct (_ =? _)%nat; injection H0 as <- <-.
    + split; [left; reflexivity|]. split; [auto|]. intros _. exact H.
    + split; [right; eauto|]. split; [intros x' v; apply is_satisfied_by_alloc|].
      intros _.
      assert (Hfail : forall z, z ∈ x :: y :: l ->
                is_satisfied_by fuel (h ++ [And (x :: y :: l)]) z c = Ok false).
      { intros z Hz. apply is_satisfied_by_alloc.
        apply (unsatisfied_elem fuel h c specifications). rewrite E. exact Hz. }
      destruct (remainder_unsatisfied_by_And fuel (h ++ [And (x :: y :: l)]) (length h)
                  (x :: y :: l) c _ (list_lookup_middle _ _ _ _ eq_refl)
                  (comprehension_const _ _ false Hfail)) as [_ ->].
      assert (Hu : unsatisfied fuel (h ++ [And (x :: y :: l)]) c (x :: y :: l)
                   = x :: y :: l).
      { apply filter_all. intros z Hz. unfold fails. rewrite (Hfail z Hz). reflexivity. }
      rewrite Hu, Nat.eqb_refl. reflexivity.
Qed.

End RemainderAgain.

(** ** Printing *)

Lemma append_assoc (s1 s2 s3 : string) : (s1 +:+ s2) +:+ s3 = s1 +:+ s2 +:+ s3.
Proof.
  induction s1 as [|a s1 IH]; [reflexivity|].
  change (String a ((s1 +:+ s2) +:+ s3) = String a (s1 +:+ s2 +:+ s3)).
  rewrite IH. reflexivity.
Qed.

Lemma length_append (s1 s2 : string) :
  String.length (s1 +:+ s2) = (String.length s1 + String.length s2)%nat.
Proof.
  induction s1 as [|a s1 IH]; [reflexivity|].
  change (S (String.length (s1 +:+ s2)) = S (String.length s1 + String.length s2)).
  rewrite IH. reflexivity.
Qed.

Lemma append_inj_r (s1 s2 t : string) : s1 +:+ t = s2 +:+ t -> s1 = s2.
Proof.
  revert s2. induction s1 as [|a s1 IH]; intros [|b s2] H; try reflexivity.
  - apply (f_equal String.length) in H. rewrite !length_append in H.
    cbn [String.length] in H. lia.
  - apply (f_equal String.length) in H. rewrite !length_append in H.
    cbn [String.length] in H. lia.
  - change (String a (s1 +:+ t) = String b (s2 +:+ t)) in H.
    injection H as -> H. f_equal. apply IH. exact H.
Qed.

Lemma str_of_int_inj (n m : Z) : str_of_int n = str_of_int m -> n = m.
Proof. unfold str_of_int. apply pretty_Z_inj. Qed.

Lemma Ok_inj {A} (x y : A) : Ok x = Ok y -> x = y.
Proof. intros H. injection H as H. exact H. Qed.

Section PrintingProperties.
Context {L : Library}.
Variable object__repr__ : string -> ref -> string.
Variable DateTime__str__ : DateTime -> string.
Implicit Types (h : heap) (o : Specification).

Local Abbreviation repr := (__repr__ object__repr__ DateTime__str__).

Lemma repr_S fuel h self :
  repr (S fuel) h self =
  match h !! self with
  | None => Raise DanglingReference
  | Some (And specifications as o) | Some (Or specifications as o) =>
      strs ← comprehension (fun s => repr fuel h s) specifications;
      Ok (join (" " +:+ __name__ o +:+ " ") strs)
  | Some o => Ok (leaf__repr__ object__repr__ DateTime__str__ self o)
  end.
Proof. reflexivity. Qed.

Lemma repr_S_Ok fuel h self s :
  repr fuel h self = Ok s -> repr (S fuel) h self = Ok s.
Proof.
  revert self s. induction fuel as [|fuel IH]; intros self s H; [discriminate|].
  rewrite repr_S in H. rewrite repr_S.
  destruct (h !! self) as [o|]; [|discriminate].
  destruct o; try exact H.
  - apply bind_Ok_inv in H as (strs & H & Hs).
    rewrite (comprehension_Ok_mono _ _ _ _ H); [exact Hs|]. intros; apply IH; assumption.
  - apply bind_Ok_inv in H as (strs & H & Hs).
    rewrite (comprehension_Ok_mono _ _ _ _ H); [exact Hs|]. intros; apply IH; assumption.
Qed.

Lemma repr_alloc fuel h h2 self s :
  repr fuel h self = Ok s -> repr fuel (h ++ h2) self = Ok s.
Proof.
  revert self s. induction fuel as [|fuel IH]; intros self s H; [discriminate|].
  rewrite repr_S in H. rewrite repr_S.
  destruct (h !! self) as [o|] eqn:Ho; [|discriminate].
  rewrite (lookup_app_l_Some _ _ _ _ Ho).
  destruct o; try exact H.
  - apply bind_Ok_inv in H as (strs & H & Hs).
    rewrite (comprehension_Ok_mono _ _ _ _ H); [exact Hs|]. intros; apply IH; assumption.
  - apply bind_Ok_inv in H as (strs & H & Hs).
    rewrite (comprehension_Ok_mono _ _ _ _ H); [exact Hs|]. intros; apply IH; assumption.
Qed.

Lemma repr_three fuel h o' (a b c : ref) sa sb sc :
  repr fuel h a = Ok sa -> repr fuel h b = Ok sb -> repr fuel h c = Ok sc ->
  comprehension (fun s => repr fuel (h ++ [o']) s) [a; b; c] = Ok [sa; sb; sc].
Proof.
  intros Ha Hb Hc. cbn [comprehension].
  rewrite (repr_alloc _ _ _ _ _ Ha), (repr_alloc _ _ _ _ _ Hb), (repr_alloc _ _ _ _ _ Hc).
  reflexivity.
Qed.

(** X13: the text of a flattened composite.  For specifications [a], [b],
    [c] that print as [sa], [sb], [sc], with [a] and [c] not [And] nodes,
    [repr((a & b) & c)] is [sa And sb And sc]: the children's texts joined
    by the class name between spaces, with no parentheses and no class name
    around them; likewise [sa Or sb Or sc] for [|]. *)
Theorem repr_flattened fuel h (a b c : ref) sa sb sc :
  (c < length h)%nat ->
  __repr__ object__repr__ DateTime__str__ fuel h a = Ok sa ->
  __repr__ object__repr__ DateTime__str__ fuel h b = Ok sb ->
  __repr__ object__repr__ DateTime__str__ fuel h c = Ok sc ->
  (~ is_And h a -> ~ is_And h c ->
     let ab := __and__ h a b in
     let abc := __and__ ab.1 ab.2 c in
     __repr__ object__repr__ DateTime__str__ (S fuel) abc.1 abc.2
     = Ok (sa +:+ " And " +:+ sb +:+ " And " +:+ sc)) /\
  (~ is_Or h a -> ~ is_Or h c ->
     let ab := __or__ h a b in
     let abc := __or__ ab.1 ab.2 c in
     __repr__ object__repr__ DateTime__str__ (S fuel) abc.1 abc.2
     = Ok (sa +:+ " Or " +:+ sb +:+ " Or " +:+ sc)).
Proof.
  intros Hlt Ha Hb Hc. split; intros Hna Hnc ab abc; unfold abc, ab.
  - rewrite (and_and h a b c Hna Hnc Hlt). cbn [fst snd].
    rewrite repr_S, list_lookup_middle by reflexivity.
    rewrite (repr_three _ _ _ _ _ _ _ _ _ Ha Hb Hc). reflexivity.
  - rewrite (or_or h a b c Hna Hnc Hlt). cbn [fst snd].
    rewrite repr_S, list_lookup_middle by reflexivity.
    rewrite (repr_three _ _ _ _ _ _ _ _ _ Ha Hb Hc). reflexivity.
Qed.

(** X14: the text does not show the grouping.  The conjunction of [a] with
    the disjunction of [b] and [c], and the disjunction of the conjunction
    of [a] and [b] with [c], both print as [sa And sb Or sc]. *)
Theorem repr_ambiguous fuel h (x y inner_or inner_and a b c : ref) sa sb sc :
  h !! x = Some (And [a; inner_or]) -> h !! inner_or = Some (Or [b; c]) ->
  h !! y = Some (Or [inner_and; c]) -> h !! inner_and = Some (And [a; b]) ->
  __repr__ object__repr__ DateTime__str__ fuel h a = Ok sa ->
  __repr__ object__repr__ DateTime__str__ fuel h b = Ok sb ->
  __repr__ object__repr__ DateTime__str__ fuel h c = Ok sc ->
  __repr__ object__repr__ DateTime__str__ (S (S fuel)) h x
  = Ok (sa +:+ " And " +:+ sb +:+ " Or " +:+ sc) /\
  __repr__ object__repr__ DateTime__str__ (S (S fuel)) h y
  = Ok (sa +:+ " And " +:+ sb +:+ " Or " +:+ sc).
Proof.
  intros Hx Hio Hy Hia Ha Hb Hc.
  pose proof (repr_S_Ok _ _ _ _ Ha) as Ha'.
  pose proof (repr_S_Ok _ _ _ _ Hc) as Hc'.
  assert (Hor : repr (S fuel) h inner_or = Ok (sb +:+ " Or " +:+ sc)).
  { rewrite repr_S, Hio. cbn [comprehension]. rewrite Hb, Hc. reflexivity. }
  assert (Hand : repr (S fuel) h inner_and = Ok (sa +:+ " And " +:+ sb)).
  { rewrite repr_S, Hia. cbn [comprehension]. rewrite Ha, Hb. reflexivity. }
  split.
  - rewrite repr_S, Hx. cbn [comprehension]. rewrite Ha', Hor. reflexivity.
  - rewrite repr_S, Hy. cbn [comprehension]. rewrite Hand, Hc'.
    cbn [mbind result_bind]. unfold join. cbn [String.concat].
    rewrite append_assoc. reflexivity.
Qed.

(** X15: the text of a [SalaryGreaterThan] or [SalaryLessThan] shows the
    class and the threshold and nothing else: two predicates of the same
    class print alike exactly when their thresholds are equal, whatever
    their base salaries, and a [SalaryGreaterThan] never prints like a
    [SalaryLessThan]. *)
Theorem salary_repr fuel h r r' t t' BASE BASE' :
  (h !! r = Some (SalaryGreaterThan t BASE) ->
   h !! r' = Some (SalaryGreaterThan t' BASE') ->
   (__repr__ object__repr__ DateTime__str__ (S fuel) h r
    = __repr__ object__repr__ DateTime__str__ (S fuel) h r' <-> t = t')) /\
  (h !! r = Some (SalaryLessThan t BASE) ->
   h !! r' = Some (SalaryLessThan t' BASE') ->
   (__repr__ object__repr__ DateTime__str__ (S fuel) h r
    = __repr__ object__repr__ DateTime__str__ (S fuel) h r' <-> t = t')) /\
  (h !! r = Some (SalaryGreaterThan t BASE) ->
   h !! r' = Some (SalaryLessThan t' BASE') ->
   __repr__ object__repr__ DateTime__str__ (S fuel) h r
   <> __repr__ object__repr__ DateTime__str__ (S fuel) h r').
Proof.
  split; [|split]; intros Hr Hr'; cbn [__repr__]; rewrite Hr, Hr';
    cbn [leaf__repr__ __name__].
  - split; [|intros ->; reflexivity]. intros H. apply Ok_inj in H.
    apply String.app_inj, String.app_inj, append_inj_r in H.
    exact (str_of_int_inj _ _ H).
  - split; [|intros ->; reflexivity]. intros H. apply Ok_inj in H.
    apply String.app_inj, String.app_inj, append_inj_r in H.
    exact (str_of_int_inj _ _ H).
  - intros H. apply Ok_inj in H. discriminate H.
Qed.

End PrintingProperties.

(** ** What evaluation reads of the candidate, and aliasing *)

Lemma comprehension_if_not_ext {A} (f g : A -> result bool) l :
  (forall x, x ∈ l -> f x = g x) -> comprehension_if_not f l = comprehension_if_not g l.
Proof.
  induction l as [|x l IH]; intros Hfg; simpl; [reflexivity|].
  rewrite (Hfg x) by left.
  rewrite IH; [reflexivity|]. intros y Hy. apply Hfg. right. exact Hy.
Qed.

Section Candidates.
Context {L : Library}.
Implicit Types (h : heap) (c : Candidate) (o : Specification).

Lemma is_satisfied_by_leaf_ext fuel h self c c' :
  (forall o, leaf_is_satisfied_by o c = leaf_is_satisfied_by o c') ->
  is_satisfied_by fuel h self c = is_satisfied_by fuel h self c'.
Proof.
  intros Hleaf. revert self. induction fuel as [|fuel IH]; intros self; [reflexivity|].
  rewrite !is_satisfied_by_S. destruct (h !! self) as [o|]; [|reflexivity].
  destruct o; try apply Hleaf.
  - rewrite (comprehension_ext _ (fun s => is_satisfied_by fuel h s c')); [reflexivity|].
    intros; apply IH.
  - rewrite (comprehension_ext _ (fun s => is_satisfied_by fuel h s c')); [reflexivity|].
    intros; apply IH.
  - rewrite IH. reflexivity.
  - rewrite !IH. reflexivity.
Qed.

Lemma remainder_unsatisfied_by_leaf_ext fuel h self c c' :
  (forall o, leaf_is_satisfied_by o c = leaf_is_satisfied_by o c') ->
  remainder_unsatisfied_by fuel h self c = remainder_unsatisfied_by fuel h self c'.
Proof.
  intros Hleaf. unfold remainder_unsatisfied_by.
  rewrite (is_satisfied_by_leaf_ext fuel h self c c' Hleaf).
  destruct (h !! self) as [[]|]; try reflexivity.
  destruct fuel as [|fuel]; [reflexivity|].
  rewrite (comprehension_if_not_ext _ (fun s => is_satisfied_by fuel h s c'));
    [reflexivity|].
  intros; apply is_satisfied_by_leaf_ext; exact Hleaf.
Qed.

(** X16: evaluation reads four keys of the candidate and nothing else: two
    candidates that agree on [area], [cargo], [salario_bruto] and
    [data_de_admissao] (each present with the same value, or absent in
    both) get the same result from [is_satisfied_by] and from
    [remainder_unsatisfied_by] of every specification, boolean or
    exception. *)
Theorem is_satisfied_by_reads_four_keys fuel h self c c' :
  c !! "area" = c' !! "area" -> c !! "cargo" = c' !! "cargo" ->
  c !! "salario_bruto" = c' !! "salario_bruto" ->
  c !! "data_de_admissao" = c' !! "data_de_admissao" ->
  is_satisfied_by fuel h self c = is_satisfied_by fuel h self c' /\
  remainder_unsatisfied_by fuel h self c = remainder_unsatisfied_by fuel h self c'.
Proof.
  intros Harea Hcargo Hsal Hadm.
  assert (Hleaf : forall o, leaf_is_satisfied_by o c = leaf_is_satisfied_by o c').
  { intros o. destruct o; try reflexivity; cbn [leaf_is_satisfied_by];
      unfold lower_equals, salaries, admission, __getitem__;
      rewrite ?Harea, ?Hcargo, ?Hsal, ?Hadm; reflexivity. }
  split; [apply is_satisfied_by_leaf_ext|apply remainder_unsatisfied_by_leaf_ext];
    exact Hleaf.
Qed.

(** X17: [sanitize] makes the representations of a salary interchangeable:
    a candidate whose [salario_bruto] is a [str] or an [int] that
    [Decimal] accepts gets, from every specification, the result of the
    candidate holding the converted [Decimal] instead. *)
Theorem sanitized_salary fuel h self c v d :
  c !! "salario_bruto" = Some v -> sanitize v = Ok d ->
  is_satisfied_by fuel h self (<["salario_bruto" := VDecimal d]> c)
  = is_satisfied_by fuel h self c.
Proof.
  intros Hc Hd. apply is_satisfied_by_leaf_ext. intros o.
  destruct o; try reflexivity; cbn [leaf_is_satisfied_by];
    unfold lower_equals, salaries, admission, __getitem__;
    rewrite ?lookup_insert_ne by discriminate; try reflexivity;
    rewrite lookup_insert_eq, Hc; cbn [mbind result_bind]; rewrite Hd; reflexivity.
Qed.

(** X18: [a & b] with [a] an [And] changes [a] itself, and with it every
    specification built from [a] before.  When [a] and [b] return [x] and
    [y] and [a] does not occur inside [b], a negation [n = ~a] built
    earlier returned [not x]; after [a & b], which returns [a], [a] returns
    [x and y] and the same object [n] returns [not (x and y)]. *)
Theorem and_mutates_left_operand fuel h a b n c x y :
  is_And h a -> ~ inside h a b ->
  h !! n = Some (Invert a) ->
  is_satisfied_by fuel h a c = Ok x ->
  is_satisfied_by fuel h b c = Ok y ->
  is_satisfied_by (S fuel) h n c = Ok (negb x) /\
  (__and__ h a b).2 = a /\
  is_satisfied_by (S fuel) (__and__ h a b).1 a c = Ok (x && y) /\
  is_satisfied_by (S (S fuel)) (__and__ h a b).1 n c = Ok (negb (x && y)).
Proof.
  intros HAnd Hin Hn Ha Hb.
  pose proof (is_satisfied_by_and fuel h a b c x y Ha Hb (fun _ => Hin)) as Hab.
  assert (H2 : (__and__ h a b).2 = a).
  { destruct HAnd as [la Hla]. unfold __and__. rewrite Hla.
    destruct (h !! b) as [[]|]; reflexivity. }
  rewrite H2 in Hab.
  split; [rewrite is_satisfied_by_S, Hn, Ha; reflexivity|].
  split; [exact H2|]. split; [exact Hab|].
  assert (Hne : n <> a).
  { intros ->. destruct HAnd as [la Hla]. congruence. }
  assert (Hn' : (__and__ h a b).1 !! n = Some (Invert a)).
  { destruct (and_store h a b) as [o [-> | ->]].
    - rewrite list_lookup_insert_ne by (intros E; apply Hne; symmetry; exact E). exact Hn.
    - apply lookup_app_l_Some. exact Hn. }
  rewrite is_satisfied_by_S, Hn', Hab. reflexivity.
Qed.

End Candidates.

(** * Worked instances

    The theorems above at concrete stores and candidates, with the example
    library. *)

Import Example.

(** C8 at the stores [[And []]] and [[Or []]]. *)
Lemma empty_composite_is_satisfied_by_witness :
  is_satisfied_by 1 [And []] 0%nat ∅ = Ok true /\
  is_satisfied_by 1 [Or []] 0%nat ∅ = Ok false.
Proof.
  split.
  - exact (proj1 (empty_composite_is_satisfied_by 0 [And []] 0%nat ∅ (And []) eq_refl)
             eq_refl).
  - exact (proj2 (empty_composite_is_satisfied_by 0 [Or []] 0%nat ∅ (Or []) eq_refl)
             eq_refl).
Defined.

(** C7 as the specification has it fails: [And()] and [Or()] evaluate to
    [True] and [False]; no exception is raised ([all([])] and [any([])]). *)
Lemma empty_composite_returns :
  is_satisfied_by 1 [And []] 0%nat ∅ = Ok true /\
  is_satisfied_by 1 [Or []] 0%nat ∅ = Ok false /\
  (forall e, is_satisfied_by 1 [And []] 0%nat ∅ <> Raise e) /\
  (forall e, is_satisfied_by 1 [Or []] 0%nat ∅ <> Raise e).
Proof.
  split; [reflexivity|]. split; [reflexivity|]. split; intros e; discriminate.
Qed.

(** C7, as amended, at the stores [[And []]] and [[Or []]]. *)
Lemma empty_composite_raises_nothing_witness :
  (is_satisfied_by 1 [And []] 0%nat ∅ = Ok true /\
   forall e, is_satisfied_by 1 [And []] 0%nat ∅ <> Raise e) /\
  (is_satisfied_by 1 [Or []] 0%nat ∅ = Ok false /\
   forall e, is_satisfied_by 1 [Or []] 0%nat ∅ <> Raise e).
Proof.
  split.
  - exact (proj1 (empty_composite_raises_nothing 0 [And []] 0%nat ∅) eq_refl).
  - exact (proj2 (empty_composite_raises_nothing 0 [Or []] 0%nat ∅) eq_refl).
Defined.

(** C1 at [a = AND(p1, p2, p3)] where only [p2] fails: the remainder is
    [p2]. *)
Lemma And_remainder_unsatisfied_by_witness :
  remainder_unsatisfied_by 2
    [TrueSpecification; FalseSpecification; TrueSpecification; And [0; 1; 2]]%nat 3%nat ∅
  = Ok ([TrueSpecification; FalseSpecification; TrueSpecification; And [0; 1; 2]]%nat,
        Some 1%nat).
Proof.
  refine (proj1 (proj2 (And_remainder_unsatisfied_by 1
    [TrueSpecification; FalseSpecification; TrueSpecification; And [0; 1; 2]]%nat
    3%nat [0; 1; 2]%nat ∅ eq_refl _)) 1%nat eq_refl).
  intros s Hs. rewrite !elem_of_cons in Hs.
  destruct Hs as [->|[->|[->|Hs]]]; [eexists; reflexivity ..|].
  apply elem_of_nil in Hs. contradiction.
Defined.

(** The other cases of the [And] remainder, by evaluation: all three fail,
    none fails, two of three fail. *)
Example And_remainder_all_fail :
  let h := [FalseSpecification; FalseSpecification; FalseSpecification;
            And [0; 1; 2]%nat] in
  remainder_unsatisfied_by 2 h 3%nat ∅ = Ok (h, Some 3%nat).
Proof. reflexivity. Qed.

Example And_remainder_none_fails :
  let h := [TrueSpecification; TrueSpecification; TrueSpecification;
            And [0; 1; 2]%nat] in
  remainder_unsatisfied_by 2 h 3%nat ∅ = Ok (h, None).
Proof. reflexivity. Qed.

Example And_remainder_two_fail :
  let h := [FalseSpecification; TrueSpecification; FalseSpecification;
            And [0; 1; 2]%nat] in
  remainder_unsatisfied_by 2 h 3%nat ∅ = Ok (h ++ [And [0; 2]%nat], Some 4%nat).
Proof. reflexivity. Qed.

(** C10 at [AND(p1, p2, p3)] where [p2] and [p3] fail: the conjunction is
    unsatisfied and so is the new [And] of the two it returns;
    [TrueSpecification] has no remainder. *)
Lemma remainder_unsatisfied_by_sound_witness :
  let h := [TrueSpecification; FalseSpecification; FalseSpecification;
            And [0; 1; 2]%nat] in
  is_satisfied_by 2 h 3%nat ∅ = Ok false /\
  is_satisfied_by 2 (L := library) (h ++ [And [1; 2]%nat]) 4%nat ∅ = Ok false /\
  (exists h', remainder_unsatisfied_by (L := library) 1 [TrueSpecification] 0%nat ∅
              = Ok (h', None)).
Proof.
  intros h.
  destruct (remainder_unsatisfied_by_sound (L := library) 2 h 3%nat ∅) as (_ & _ & Hsome).
  destruct (Hsome (h ++ [And [1; 2]%nat]) 4%nat eq_refl) as (Hself & _ & Hrem).
  split; [exact Hself|]. split; [exact Hrem|].
  apply (remainder_unsatisfied_by_sound (L := library) 1 [TrueSpecification] 0%nat ∅).
  reflexivity.
Defined.

(** C2, as amended, at [a = p & q] (an [And]) and a leaf [b]. *)
Lemma composition_is_satisfied_by_witness :
  let h := [TrueSpecification; FalseSpecification; And [0; 1]; TrueSpecification]%nat in
  is_satisfied_by 3 (__and__ h 2 3).1 (__and__ h 2 3).2 ∅ = Ok (false && true) /\
  is_satisfied_by 3 (__or__ h 2 3).1 (__or__ h 2 3).2 ∅ = Ok (false || true) /\
  is_satisfied_by 3 (__xor__ h 2 3).1 (__xor__ h 2 3).2 ∅ = Ok (xorb false true) /\
  is_satisfied_by 3 (__invert__ h 2).1 (__invert__ h 2).2 ∅ = Ok (negb false).
Proof.
  intros h.
  destruct (composition_is_satisfied_by 2 h 2%nat 3%nat ∅ false true eq_refl eq_refl)
    as (Hand & Hor & Hxor & Hnot & _).
  split; [|split; [|split]].
  - apply Hand. intros _ (o & y & Ho & Hy & _).
    injection Ho as <-. apply elem_of_nil in Hy. exact Hy.
  - apply Hor. intros [l Hl]. discriminate Hl.
  - exact Hxor.
  - exact Hnot.
Defined.

(** C2 as the specification has it fails for AND (and likewise OR): with
    [a = p & q] and [b = ~a], both of which evaluate (to [True] and
    [False]), [a & b] appends [b] to [a]'s own child list and returns [a],
    which now contains itself through [b]; its evaluation never returns a
    boolean, whatever the recursion limit. *)
Lemma and_with_own_negation :
  let h := [TrueSpecification; TrueSpecification; And [0; 1]; Invert 2]%nat in
  is_satisfied_by 3 h 2%nat ∅ = Ok true /\
  is_satisfied_by 3 h 3%nat ∅ = Ok false /\
  (__and__ h 2 3).1 = [TrueSpecification; TrueSpecification; And [0; 1; 3]; Invert 2]%nat /\
  (__and__ h 2 3).2 = 2%nat /\
  (forall fuel, is_satisfied_by fuel (__and__ h 2 3).1 (__and__ h 2 3).2 ∅
                = Raise RecursionError).
Proof.
  intros h. split; [reflexivity|]. split; [reflexivity|].
  split; [reflexivity|]. split; [reflexivity|].
  change (__and__ h 2 3).1
    with [TrueSpecification; TrueSpecification; And [0; 1; 3]; Invert 2]%nat.
  change (__and__ h 2 3).2 with 2%nat.
  assert (H : forall fuel,
    is_satisfied_by fuel
      [TrueSpecification; TrueSpecification; And [0; 1; 3]; Invert 2]%nat 2%nat ∅
      = Raise RecursionError /\
    is_satisfied_by fuel
      [TrueSpecification; TrueSpecification; And [0; 1; 3]; Invert 2]%nat 3%nat ∅
      = Raise RecursionError).
  { induction fuel as [|fuel [IH2 IH3]]; [split; reflexivity|].
    destruct fuel as [|fuel]; [split; reflexivity|].
    split.
    - rewrite is_satisfied_by_S. cbn [lookup list_lookup].
      cbn [comprehension mbind result_bind].
      rewrite IH3.
      rewrite !(is_satisfied_by_S fuel). reflexivity.
    - rewrite is_satisfied_by_S. cbn [lookup list_lookup].
      rewrite IH2. reflexivity. }
  intros fuel. exact (proj1 (H fuel)).
Qed.

(** C3 at three leaves. *)
Lemma and_or_flattening_witness :
  let h := [TrueSpecification; FalseSpecification; TrueSpecification] in
  let ab := __and__ h 0%nat 1%nat in
  let abc := __and__ ab.1 ab.2 2%nat in
  abc.2 = ab.2 /\ abc.1 = h ++ [And [0; 1; 2]]%nat /\
  is_satisfied_by 2 abc.1 abc.2 ∅ = Ok (true && false && true).
Proof.
  intros h.
  assert (Hleaf : forall r, ~ is_And (L := library) h r).
  { intros r [l Hl]. destruct r as [|[|[|r]]]; discriminate Hl. }
  destruct (proj1 (and_or_flattening h 0%nat 1%nat 2%nat)
              (Hleaf 0%nat) (Hleaf 2%nat) ltac:(cbn; lia)) as (H2 & H1 & _ & Heval).
  split; [exact H2|]. split; [exact H1|].
  exact (Heval 1%nat ∅ true false true eq_refl eq_refl eq_refl).
Defined.

(** C6 as the specification has it fails in the right operand position:
    with leaves [p], [q], [r], the conjunction [p & (q & r)] is built by
    [Specification.__and__], which never flattens: the result is an [And] of
    [p] and the [And] [q & r]. *)
Lemma leaf_and_conjunction_nests :
  let h := [TrueSpecification; TrueSpecification; TrueSpecification] in
  let qr := __and__ h 1%nat 2%nat in
  let pqr := __and__ qr.1 0%nat qr.2 in
  qr.1 !! qr.2 = Some (And [1; 2]%nat) /\
  pqr.1 !! pqr.2 = Some (And [0; 3]%nat) /\
  pqr.1 !! 3%nat = Some (And [1; 2]%nat) /\
  (flat (L := library) pqr.1 -> False).
Proof.
  intros h qr pqr. split; [reflexivity|]. split; [reflexivity|]. split; [reflexivity|].
  intros [HA _].
  apply (HA 4%nat [0; 3]%nat 3%nat); [reflexivity| |exists [1; 2]%nat; reflexivity].
  rewrite !elem_of_cons. auto.
Qed.

(** C6, as amended, at a flat store holding an [And] and an [Or]. *)
Lemma flattening_invariant_witness :
  let h := [TrueSpecification; FalseSpecification; And [0; 1]%nat; Or [0; 1]%nat] in
  flat (L := library) (__and__ h 2%nat 0%nat).1 /\
  flat (L := library) (__or__ h 3%nat 1%nat).1 /\
  (__and__ h 2%nat 2%nat).1 !! (__and__ h 2%nat 2%nat).2 = Some (And ([0; 1] ++ [0; 1])%nat).
Proof.
  intros h.
  assert (Hclosed : closed (L := library) h).
  { intros r o x Ho Hx. destruct r as [|[|[|[|r]]]]; try discriminate Ho;
      injection Ho as <-; cbn in Hx; rewrite ?elem_of_cons in Hx;
      repeat (destruct Hx as [->|Hx]; [cbn; lia|]); apply elem_of_nil in Hx;
      contradiction. }
  assert (Hflat : flat (L := library) h).
  { split; intros r l x Ho Hx [l' Hl']; destruct r as [|[|[|[|r]]]];
      try discriminate Ho; injection Ho as <-; rewrite ?elem_of_cons in Hx;
      repeat (destruct Hx as [->|Hx]; [discriminate Hl'|]); apply elem_of_nil in Hx;
      contradiction. }
  split; [|split].
  - apply (flattening_invariant h 2%nat 0%nat Hclosed Hflat ltac:(cbn; lia) ltac:(cbn; lia)).
    left. exists [0; 1]%nat. reflexivity.
  - apply (flattening_invariant h 3%nat 1%nat Hclosed Hflat ltac:(cbn; lia) ltac:(cbn; lia)).
    left. exists [0; 1]%nat. reflexivity.
  - apply (flattening_invariant h 2%nat 2%nat Hclosed Hflat ltac:(cbn; lia) ltac:(cbn; lia));
      reflexivity.
Defined.

(** C9 at a candidate with no [area], one whose [salario_bruto] is not a
    decimal literal and one whose [data_de_admissao] is not a date. *)
Lemma leaf_errors_witness :
  is_satisfied_by 1 [ITDepartment] 0%nat ∅ = Raise (KeyError "area") /\
  is_satisfied_by 1 [SalaryGreaterThan 4 (Finite false 10450 (-1))] 0%nat
    (<["salario_bruto" := VStr "abc"]> ∅) = Raise InvalidOperation /\
  is_satisfied_by 1 [AdmissionTimeInYearsGreaterThan 3 (Date 2024 1 1)] 0%nat
    (<["data_de_admissao" := VStr "01/01/2019"]> ∅) = Raise ParserError.
Proof.
  split; [|split].
  - apply (leaf_errors 0 [ITDepartment] 0%nat ∅ ITDepartment "area" eq_refl eq_refl).
    reflexivity.
  - destruct (leaf_errors (L := library) 0 [SalaryGreaterThan 4 (Finite false 10450 (-1))]
                0%nat (<["salario_bruto" := VStr "abc"]> ∅) _ "salario_bruto"
                eq_refl eq_refl)
      as (_ & _ & Hmalformed & _).
    apply (Hmalformed "abc"); vm_compute; reflexivity.
  - destruct (leaf_errors (L := library) 0
                [AdmissionTimeInYearsGreaterThan (L := library) 3 (Date 2024 1 1)] 0%nat
                (<["data_de_admissao" := VStr "01/01/2019"]> ∅) _ "data_de_admissao"
                eq_refl eq_refl)
      as (_ & _ & _ & Hmalformed).
    apply (Hmalformed "01/01/2019"); vm_compute; reflexivity.
Defined.

(** C4 at the candidate of the scenarios, admitted on 2019-01-01, with the
    reference time frozen at 2024-01-01. *)
Lemma tenure_is_satisfied_by_witness :
  (exists b,
     is_satisfied_by 1 [AdmissionTimeInYearsBetween (1 * 365) (6 * 365) (Date 2024 1 1)]
       0%nat analista = Ok b /\
     (b = true <->
      1 * 365 < date_in_days (Date 2019 1 1) (Date 2024 1 1) < 6 * 365)) /\
  (exists b,
     is_satisfied_by 1 [AdmissionTimeInYearsLessThan 5 (Date 2024 1 1)]
       0%nat analista = Ok b /\
     (b = true <-> date_in_years (Date 2019 1 1) (Date 2024 1 1) < 5)) /\
  (exists b,
     is_satisfied_by 1 [AdmissionTimeInYearsGreaterThan 5 (Date 2024 1 1)]
       0%nat analista = Ok b /\
     (b = true <-> 5 <= date_in_years (Date 2019 1 1) (Date 2024 1 1))).
Proof.
  assert (Hc : analista !! "data_de_admissao" = Some (VStr "2019-01-01"))
    by (vm_compute; reflexivity).
  assert (Hp : parse "2019-01-01" = Some (Date 2019 1 1)) by (vm_compute; reflexivity).
  assert (Hf : frozen_time (Some "2024-01-01") (Date 1970 1 1) = Ok (Date 2024 1 1))
    by (vm_compute; reflexivity).
  split; [|split].
  - exact (proj1 (tenure_is_satisfied_by (L := library) 0
                    [AdmissionTimeInYearsBetween (L := library) (1 * 365) (6 * 365)
                       (Date 2024 1 1)]
                    0%nat analista "2019-01-01" _ _ _ _ 1 6 0 Hc Hp Hf) _ eq_refl eq_refl).
  - exact (proj1 (proj2 (tenure_is_satisfied_by (L := library) 0
                    [AdmissionTimeInYearsLessThan (L := library) 5 (Date 2024 1 1)]
                    0%nat analista "2019-01-01" _ _ _ _ 0 0 5 Hc Hp Hf)) _ eq_refl eq_refl).
  - exact (proj2 (proj2 (tenure_is_satisfied_by (L := library) 0
                    [AdmissionTimeInYearsGreaterThan (L := library) 5 (Date 2024 1 1)]
                    0%nat analista "2019-01-01" _ _ _ _ 0 0 5 Hc Hp Hf)) _ eq_refl eq_refl).
Defined.



(** The scenarios: the analyst of the technology area, salary 5225.00,
    admitted on 2019-01-01, reference time 2024-01-01. *)
Example scenario_conjunction :
  let h := [ITDepartment; SalaryGreaterThan 4 (Finite false 10450 (-1));
            AdmissionTimeInYearsGreaterThan 3 (Date 2024 1 1)] in
  let ab := __and__ h 0%nat 1%nat in
  let abc := __and__ ab.1 ab.2 2%nat in
  is_satisfied_by 1 h 0%nat analista = Ok true /\
  is_satisfied_by 1 h 1%nat analista = Ok true /\
  is_satisfied_by 1 h 2%nat analista = Ok true /\
  abc.1 !! abc.2 = Some (And [0; 1; 2]%nat) /\
  is_satisfied_by 2 abc.1 abc.2 analista = Ok true.
Proof.
  intros h ab abc.
  split; [vm_compute; reflexivity|]. split; [vm_compute; reflexivity|].
  split; [vm_compute; reflexivity|]. split; [reflexivity|].
  vm_compute. reflexivity.
Qed.

Example scenario_remainder :
  let h := [ITDepartment; SalaryGreaterThan 4 (Finite false 10450 (-1));
            AdmissionTimeInYearsLessThan 2 (Date 2024 1 1)] in
  let ab := __and__ h 0%nat 1%nat in
  let abc := __and__ ab.1 ab.2 2%nat in
  is_satisfied_by 1 h 2%nat analista = Ok false /\
  remainder_unsatisfied_by 2 abc.1 abc.2 analista = Ok (abc.1, Some 2%nat).
Proof.
  intros h ab abc. split; [vm_compute; reflexivity|]. reflexivity.
Qed.


(** ** Instances of the further properties *)

(** X1 at [False & ITDepartment] and a candidate without [area]. *)
Lemma composite_raises_first_exception_witness :
  is_satisfied_by 2 [FalseSpecification; ITDepartment; And [0; 1]%nat] 2%nat ∅
  = Raise (KeyError "area").
Proof.
  apply (composite_raises_first_exception 1
           [FalseSpecification; ITDepartment; And [0; 1]%nat] 2%nat ∅
           [0%nat] 1%nat [] (KeyError "area")).
  - left. reflexivity.
  - intros y Hy. apply list_elem_of_singleton in Hy as ->. eexists. reflexivity.
  - reflexivity.
Defined.

(** X2 at an [And] and an [Or] of [True] and [False]. *)
Lemma composite_all_any_witness :
  (exists b,
     is_satisfied_by 2 [TrueSpecification; FalseSpecification; And [0; 1]%nat] 2%nat ∅
     = Ok b /\
     (b = true <->
      forall s, s ∈ [0; 1]%nat ->
        is_satisfied_by 1 [TrueSpecification; FalseSpecification; And [0; 1]%nat] s ∅
        = Ok true)) /\
  (exists b,
     is_satisfied_by 2 [TrueSpecification; FalseSpecification; Or [0; 1]%nat] 2%nat ∅
     = Ok b /\
     (b = true <->
      exists s, s ∈ [0; 1]%nat /\
        is_satisfied_by 1 [TrueSpecification; FalseSpecification; Or [0; 1]%nat] s ∅
        = Ok true)).
Proof.
  split.
  - refine (proj1 (composite_all_any (L := library) 1
              [TrueSpecification; FalseSpecification; And [0; 1]%nat] 2%nat ∅
              [0; 1]%nat _) eq_refl).
    intros s Hs. rewrite !elem_of_cons in Hs.
    destruct Hs as [->|[->|Hs]]; [eexists; reflexivity ..|].
    apply elem_of_nil in Hs. contradiction.
  - refine (proj2 (composite_all_any (L := library) 1
              [TrueSpecification; FalseSpecification; Or [0; 1]%nat] 2%nat ∅
              [0; 1]%nat _) eq_refl).
    intros s Hs. rewrite !elem_of_cons in Hs.
    destruct Hs as [->|[->|Hs]]; [eexists; reflexivity ..|].
    apply elem_of_nil in Hs. contradiction.
Defined.

(** X3 at [True & ~True], down to the inner [True]. *)
Lemma is_satisfied_by_evaluates_everything_witness :
  let h := [TrueSpecification; Invert 0%nat; And [0; 1]%nat] in
  (exists b, is_satisfied_by 3 (L := library) h 0%nat ∅ = Ok b) /\
  ~ inside (L := library) h 0%nat 0%nat.
Proof.
  intros h.
  apply (is_satisfied_by_evaluates_everything (L := library) 3 h 2%nat 0%nat ∅ false).
  - reflexivity.
  - apply (reaches_step h 2%nat (And [0; 1]%nat) 1%nat 0%nat eq_refl).
    + cbn [children]. rewrite !elem_of_cons. auto.
    + apply (reaches_step h 1%nat (Invert 0%nat) 0%nat 0%nat eq_refl).
      * cbn [children]. apply list_elem_of_singleton. reflexivity.
      * apply reaches_refl.
Defined.

(** X4: combining the conjunction at 2 leaves the leaf at 1 alone. *)
Lemma operators_frame_witness :
  let h := [TrueSpecification; FalseSpecification; And [0; 1]%nat] in
  is_satisfied_by 1 (L := library) (__xor__ h 2%nat 0%nat).1 1%nat ∅ = Ok false /\
  is_satisfied_by 1 (L := library) (__invert__ h 2%nat).1 1%nat ∅ = Ok false /\
  is_satisfied_by 1 (L := library) (__and__ h 2%nat 0%nat).1 1%nat ∅ = Ok false /\
  is_satisfied_by 1 (L := library) (__or__ h 2%nat 0%nat).1 1%nat ∅ = Ok false.
Proof.
  intros h.
  destruct (operators_frame (L := library) 1 h 2%nat 0%nat 1%nat ∅ false eq_refl)
    as (Hxor & Hnot & Hframe & _).
  split; [exact Hxor|]. split; [exact Hnot|].
  apply Hframe. intros Hr. inversion Hr as [|x o y z Ho Hy _]; subst.
  injection Ho as <-. apply elem_of_nil in Hy. exact Hy.
Defined.

(** X5 at two [ITDepartment] objects and the analyst. *)
Lemma area_predicates_exclusive_witness :
  is_satisfied_by 1 [ITDepartment; ITDepartment] 0%nat analista = Ok true /\
  is_satisfied_by 1 [ITDepartment; ITDepartment] 1%nat analista = Ok true /\
  ITDepartment (L := library) = ITDepartment.
Proof.
  assert (H0 : is_satisfied_by 1 [ITDepartment; ITDepartment] 0%nat analista = Ok true)
    by (vm_compute; reflexivity).
  assert (H1 : is_satisfied_by 1 [ITDepartment; ITDepartment] 1%nat analista = Ok true)
    by (vm_compute; reflexivity).
  split; [exact H0|]. split; [exact H1|].
  exact (area_predicates_exclusive (L := library) 0 [ITDepartment; ITDepartment] analista
           0%nat 1%nat ITDepartment ITDepartment eq_refl eq_refl eq_refl eq_refl H0 H1).
Defined.

(** X6 at the analyst, whose ratio is 5.0, and the range from 2 to 5. *)
Lemma salary_between_as_conjunction_witness :
  let BASE := Finite false 10450 (-1) in
  let h := [SalaryBetween (L := library) 2 5 BASE; SalaryLessThan 2 BASE;
            SalaryGreaterThan 5 BASE] in
  let not_less := __invert__ h 1%nat in
  let not_greater := __invert__ not_less.1 2%nat in
  let both := __and__ not_greater.1 not_less.2 not_greater.2 in
  is_satisfied_by 3 both.1 both.2 analista = is_satisfied_by 1 h 0%nat analista.
Proof.
  intros BASE h.
  exact (salary_between_as_conjunction (L := library) 0 h analista 2 5 BASE
           0%nat 1%nat 2%nat eq_refl eq_refl eq_refl).
Defined.

(** X7 at the analyst and the thresholds 4 and 3. *)
Lemma salary_thresholds_witness :
  let BASE := Finite false 10450 (-1) in
  let h := [SalaryGreaterThan (L := library) 4 BASE; SalaryGreaterThan 3 BASE;
            SalaryLessThan 4 BASE; SalaryLessThan 3 BASE] in
  is_satisfied_by 1 h 1%nat analista = Ok true /\
  is_satisfied_by 1 h 2%nat analista = Ok false /\
  is_satisfied_by 1 h 3%nat analista = Ok false.
Proof.
  intros BASE h.
  apply (salary_thresholds (L := library) 0 h analista 4 3 BASE 0%nat 1%nat 2%nat 3%nat
           ltac:(lia) eq_refl eq_refl eq_refl eq_refl).
  vm_compute. reflexivity.
Defined.

(** X8 at the analyst and a threshold of 3 years. *)
Lemma tenure_greater_is_not_less_witness :
  let h := [AdmissionTimeInYearsLessThan (L := library) 3 (Date 2024 1 1);
            AdmissionTimeInYearsGreaterThan 3 (Date 2024 1 1)] in
  is_satisfied_by 2 (__invert__ h 0%nat).1 (__invert__ h 0%nat).2 analista
  = is_satisfied_by 1 h 1%nat analista.
Proof.
  intros h.
  exact (tenure_greater_is_not_less (L := library) 0 h analista 3 (Date 2024 1 1)
           0%nat 1%nat eq_refl eq_refl).
Defined.

(** X9 at the ranges from 5 to 5 years and from 6 to 4 salaries. *)
Lemma empty_ranges_witness :
  let BASE := Finite false 10450 (-1) in
  (is_satisfied_by 1 [AdmissionTimeInYearsBetween (L := library) (5 * 365) (5 * 365)
                        (Date 2024 1 1)] 0%nat analista <> Ok true) /\
  (is_satisfied_by 1 [SalaryBetween (L := library) 6 4 BASE] 0%nat analista <> Ok true).
Proof.
  intros BASE. split.
  - apply (proj1 (empty_ranges (L := library) 0
                    [AdmissionTimeInYearsBetween (L := library) (5 * 365) (5 * 365)
                       (Date 2024 1 1)] 0%nat analista _ eq_refl)
             5 5 (Some "2024-01-01") (Date 1970 1 1)); [reflexivity|lia].
  - apply (proj2 (empty_ranges (L := library) 0
                    [SalaryBetween (L := library) 6 4 BASE] 0%nat analista _ eq_refl)
             6 4 None); [reflexivity|lia].
Defined.

(** X10 at [SalaryGreaterThan(4, Decimal(0))], which keeps the default base. *)
Lemma salary_never_divides_by_zero_witness :
  let o := SalaryGreaterThan (L := library) 4 (Finite false 10450 (-1)) in
  (exists BASE, salary_base o = Some BASE /\ __bool__ BASE = true) /\
  is_satisfied_by 1 [o] 0%nat analista <> Raise DivisionByZero.
Proof.
  intros o.
  apply (salary_never_divides_by_zero (L := library) 0 [o] 0%nat analista o
           (Some (VDecimal (Finite false 0 0))) 4 0 0).
  - intros s; discriminate.
  - left. reflexivity.
  - reflexivity.
Defined.

(** X11 at [SalaryGreaterThan(4, base="0")] with the example decimal syntax. *)
Lemma zero_string_base_witness :
  let c : Candidate := <["salario_bruto" := VDecimal (Finite false 522500 (-2))]> ∅ in
  let o := SalaryGreaterThan (L := library) 4 (Finite false 0 0) in
  SalaryGreaterThan__init__ 4 (Some (VStr "0")) = Ok o /\
  is_satisfied_by 1 [o] 0%nat c = Raise DivisionByZero.
Proof.
  intros c o.
  assert (Hinit : SalaryGreaterThan__init__ 4 (Some (VStr "0")) = Ok o)
    by reflexivity.
  split; [exact Hinit|].
  destruct (zero_string_base (L := library) 0 [o] 0%nat c o "0" false 0 4 0 0
              (Finite false 522500 (-2))) as (_ & Hdiv & _).
  - discriminate.
  - vm_compute. reflexivity.
  - left. exact Hinit.
  - reflexivity.
  - vm_compute. reflexivity.
  - apply (Hdiv false 522500%N (-2)); [reflexivity|discriminate].
Defined.

(** X12 at [AND(p1, p2, p3)] where [p2] and [p3] fail. *)
Lemma remainder_unsatisfied_by_fixed_point_witness :
  let h := [TrueSpecification; FalseSpecification; FalseSpecification;
            And [0; 1; 2]%nat] in
  remainder_unsatisfied_by (L := library) 2 (h ++ [And [1; 2]%nat]) 4%nat ∅
  = Ok (h ++ [And [1; 2]%nat], Some 4%nat).
Proof.
  intros h.
  apply (remainder_unsatisfied_by_fixed_point (L := library) 2 h 3%nat ∅
           (h ++ [And [1; 2]%nat]) 4%nat eq_refl).
  intros r l x Ho Hx [l' Hl']. destruct r as [|[|[|[|r]]]]; try discriminate Ho.
  injection Ho as <-. rewrite !elem_of_cons in Hx.
  repeat (destruct Hx as [->|Hx]; [discriminate Hl'|]).
  apply elem_of_nil in Hx. contradiction.
Defined.

(** X13 at three leaves that define [__repr__]. *)
Lemma repr_flattened_witness :
  let BASE := Finite false 10450 (-1) in
  let h := [DirectorBoard (L := library); SalaryGreaterThan 4 BASE; SalaryBetween 1 2 BASE] in
  let ab := __and__ h 0%nat 1%nat in
  let abc := __and__ ab.1 ab.2 2%nat in
  __repr__ ExamplePrinting.object__repr__ ExamplePrinting.DateTime__str__ 2 abc.1 abc.2
  = Ok "DirectorBoard() And SalaryGreaterThan(threshold=4) And SalaryBetween(first=1, second=2)".
Proof.
  intros BASE h.
  assert (Hleaf : forall r, ~ is_And (L := library) h r).
  { intros r [l Hl]. destruct r as [|[|[|r]]]; discriminate Hl. }
  apply (proj1 (repr_flattened (L := library)
                  ExamplePrinting.object__repr__ ExamplePrinting.DateTime__str__
                  1 h 0%nat 1%nat 2%nat
                  "DirectorBoard()" "SalaryGreaterThan(threshold=4)"
                  "SalaryBetween(first=1, second=2)"
                  ltac:(cbn; lia) eq_refl eq_refl eq_refl)
           (Hleaf 0%nat) (Hleaf 2%nat)).
Defined.

(** X14 at two groupings of the same three leaves. *)
Lemma repr_ambiguous_witness :
  let BASE := Finite false 10450 (-1) in
  let h := [DirectorBoard (L := library); SalaryGreaterThan 4 BASE; SalaryLessThan 9 BASE;
            Or [1; 2]%nat; And [0; 3]%nat; And [0; 1]%nat; Or [5; 2]%nat] in
  __repr__ ExamplePrinting.object__repr__ ExamplePrinting.DateTime__str__ 3 h 4%nat
  = Ok "DirectorBoard() And SalaryGreaterThan(threshold=4) Or SalaryLessThan(threshold=9)" /\
  __repr__ ExamplePrinting.object__repr__ ExamplePrinting.DateTime__str__ 3 h 6%nat
  = Ok "DirectorBoard() And SalaryGreaterThan(threshold=4) Or SalaryLessThan(threshold=9)".
Proof.
  intros BASE h.
  exact (repr_ambiguous (L := library)
           ExamplePrinting.object__repr__ ExamplePrinting.DateTime__str__
           1 h 4%nat 6%nat 3%nat 5%nat 0%nat 1%nat 2%nat
           "DirectorBoard()" "SalaryGreaterThan(threshold=4)" "SalaryLessThan(threshold=9)"
           eq_refl eq_refl eq_refl eq_refl eq_refl eq_refl eq_refl).
Defined.

(** The two specifications of the previous instance differ on the analyst. *)
Example repr_ambiguous_meaning :
  let BASE := Finite false 10450 (-1) in
  let h := [DirectorBoard (L := library); SalaryGreaterThan 4 BASE; SalaryLessThan 9 BASE;
            Or [1; 2]%nat; And [0; 3]%nat; And [0; 1]%nat; Or [5; 2]%nat] in
  is_satisfied_by 3 h 4%nat analista = Ok false /\
  is_satisfied_by 3 h 6%nat analista = Ok true.
Proof. intros BASE h. split; vm_compute; reflexivity. Qed.

(** X15 at two [SalaryGreaterThan(4)] with different bases. *)
Lemma salary_repr_witness :
  let h := [SalaryGreaterThan (L := library) 4 (Finite false 10450 (-1));
            SalaryGreaterThan 4 (Finite false 20000 (-1))] in
  __repr__ ExamplePrinting.object__repr__ ExamplePrinting.DateTime__str__ 1 h 0%nat
  = __repr__ ExamplePrinting.object__repr__ ExamplePrinting.DateTime__str__ 1 h 1%nat.
Proof.
  intros h.
  apply (proj1 (salary_repr (L := library)
                  ExamplePrinting.object__repr__ ExamplePrinting.DateTime__str__
                  0 h 0%nat 1%nat 4 4 _ _) eq_refl eq_refl).
  reflexivity.
Defined.

(** Classes without [__repr__] print through [object.__repr__]. *)
Example repr_without_repr :
  __repr__ (L := library) ExamplePrinting.object__repr__ ExamplePrinting.DateTime__str__ 2
    [Trainee; TrueSpecification; And [0; 1]%nat] 2%nat
  = Ok "<Trainee object at 0> And <TrueSpecification object at 1>".
Proof. vm_compute. reflexivity. Qed.

(** X16 at the analyst with a [nome] added. *)
Lemma is_satisfied_by_reads_four_keys_witness :
  let c' : Candidate := <["nome" := VStr "Ana"]> analista in
  is_satisfied_by 1 [ITDepartment] 0%nat analista
  = is_satisfied_by 1 [ITDepartment] 0%nat c' /\
  remainder_unsatisfied_by 1 [ITDepartment] 0%nat analista
  = remainder_unsatisfied_by 1 [ITDepartment] 0%nat c'.
Proof.
  intros c'.
  apply (is_satisfied_by_reads_four_keys (L := library) 1 [ITDepartment] 0%nat analista c');
    vm_compute; reflexivity.
Defined.

(** X17 at the analyst, whose salary is the string 5225.00. *)
Lemma sanitized_salary_witness :
  let h := [SalaryGreaterThan (L := library) 4 (Finite false 10450 (-1))] in
  is_satisfied_by 1 h 0%nat
    (<["salario_bruto" := VDecimal (Finite false 522500 (-2))]> analista)
  = is_satisfied_by 1 h 0%nat analista.
Proof.
  intros h.
  apply (sanitized_salary (L := library) 1 h 0%nat analista (VStr "5225.00")
           (Finite false 522500 (-2))); vm_compute; reflexivity.
Defined.

(** X18 at [a = True & True], [n = ~a] and [b = False]. *)
Lemma and_mutates_left_operand_witness :
  let h := [TrueSpecification; TrueSpecification; And [0; 1]%nat; Invert 2%nat;
            FalseSpecification] in
  is_satisfied_by 3 (L := library) h 3%nat ∅ = Ok (negb true) /\
  (__and__ h 2%nat 4%nat).2 = 2%nat /\
  is_satisfied_by 3 (L := library) (__and__ h 2%nat 4%nat).1 2%nat ∅ = Ok (true && false) /\
  is_satisfied_by 4 (L := library) (__and__ h 2%nat 4%nat).1 3%nat ∅
  = Ok (negb (true && false)).
Proof.
  intros h.
  apply (and_mutates_left_operand (L := library) 2 h 2%nat 4%nat 3%nat ∅ true false).
  - exists [0; 1]%nat. reflexivity.
  - intros (o & y & Ho & Hy & _). injection Ho as <-. apply elem_of_nil in Hy. exact Hy.
  - reflexivity.
  - reflexivity.
  - reflexivity.
Defined.
